(** * Protein Structure Finder: a shallow embedding of [prot.py]

    The program is a Streamlit page: a two-stage search against the RCSB
    search service, a per-entry metadata fetch run on a thread pool, a
    chain of boolean-mask filters over a pandas frame, a ranking of the
    X-ray structures and two ZIP exports.

    Modelling choices:
    - JSON documents as returned by [Response.json()] are values of [Json];
      a number carries the exact rational value of the parsed int or float.
    - Python's dynamic operations ([dict.get], [x[0]], iteration, hashing,
      truthiness) are functions into [result], with the exception Python
      raises on a value of the wrong shape.
    - Strings are byte strings holding UTF-8; comparing bytes
      lexicographically is comparing code points lexicographically, which
      is the order [sorted] uses on [str].
    - The remote services are a function [env] from a request to either a
      response or the exception [requests] raises; every request issued and
      every widget shown is appended to a log of events that is threaded
      through the computation.
    - A frame is the list of its rows, with the column types of the data
      contract. *)

From Stdlib Require Import QArith.
From stdpp Require Import base list strings sorting.
From Stdlib Require Import Ascii.
From Stdlib Require String.

Open Scope string_scope.
Open Scope list_scope.

(** ** Python values and exceptions *)

Inductive PyExc : Set :=
  | ConnectionError
  | ReadTimeout
  | JSONDecodeError
  | AttributeError
  | TypeError
  | IndexError
  | KeyError
  | ValueError.

Inductive result (A : Type) : Type :=
  | Return (a : A)
  | Raise (e : PyExc).
Arguments Return {A} a.
Arguments Raise {A} e.

Definition rbind {A B} (m : result A) (k : A → result B) : result B :=
  match m with
  | Return a => k a
  | Raise e => Raise e
  end.

Fixpoint rmapM {A B} (f : A → result B) (l : list A) : result (list B) :=
  match l with
  | [] => Return []
  | x :: l' => rbind (f x) (λ y, rbind (rmapM f l') (λ ys, Return (y :: ys)))
  end.

#[local] Unset Elimination Schemes.
Inductive Json : Type :=
  | JNull
  | JBool (b : bool)
  | JNum (q : Q)
  | JStr (s : string)
  | JArr (l : list Json)
  | JObj (kv : list (string * Json)).
#[local] Set Elimination Schemes.

(** A parsed object has each key once; [assoc] reads the first binding. *)
Fixpoint assoc {V} (k : string) (kv : list (string * V)) : option V :=
  match kv with
  | [] => None
  | (k', v) :: kv' => if String.eqb k k' then Some v else assoc k kv'
  end.

(** [d.get(k, dflt)]: only a dict has [get]. *)
Definition py_get (d : Json) (k : string) (dflt : Json) : result Json :=
  match d with
  | JObj kv => Return (default dflt (assoc k kv))
  | _ => Raise AttributeError
  end.

(** [d[k]] for a string key [k]. *)
Definition py_getitem (d : Json) (k : string) : result Json :=
  match d with
  | JObj kv => match assoc k kv with
               | Some v => Return v
               | None => Raise KeyError
               end
  | _ => Raise TypeError
  end.

(** The code points of a UTF-8 string: a continuation byte (10xxxxxx)
    belongs to the character that the preceding bytes started. *)
Definition is_continuation (c : ascii) : bool :=
  let n := N_of_ascii c in (128 <=? n)%N && (n <? 192)%N.

Definition starts_with_continuation (s : string) : bool :=
  match s with
  | String c _ => is_continuation c
  | EmptyString => false
  end.

Fixpoint chars (s : string) : list string :=
  match s with
  | EmptyString => []
  | String c s' =>
      if starts_with_continuation s' then
        match chars s' with
        | h :: t => String c h :: t
        | [] => [String c EmptyString]
        end
      else String c EmptyString :: chars s'
  end.

(** [x[0]]. *)
Definition py_getitem0 (x : Json) : result Json :=
  match x with
  | JArr (v :: _) => Return v
  | JArr [] => Raise IndexError
  | JStr s => match chars s with
              | c :: _ => Return (JStr c)
              | [] => Raise IndexError
              end
  | JObj _ => Raise KeyError
  | _ => Raise TypeError
  end.

(** [for v in x] / [list(x)]: lists give their items, strings their
    characters, dicts their keys. *)
Definition py_iter (x : Json) : result (list Json) :=
  match x with
  | JArr l => Return l
  | JStr s => Return (JStr <$> chars s)
  | JObj kv => Return ((λ p, JStr p.1) <$> kv)
  | _ => Raise TypeError
  end.

(** Truth value of [x] in [if x:]. *)
Definition truthy (x : Json) : bool :=
  match x with
  | JNull => false
  | JBool b => b
  | JNum q => negb (Qeq_bool q 0)
  | JStr s => negb (String.eqb s "")
  | JArr l => match l with [] => false | _ => true end
  | JObj kv => match kv with [] => false | _ => true end
  end.

(** [str.upper] on ASCII letters; other bytes are kept. On a string that
    [is_ascii] this is [str.upper]; Python also maps the letters outside
    ASCII. *)
Definition upper_ascii (c : ascii) : ascii :=
  let n := N_of_ascii c in
  if (97 <=? n)%N && (n <=? 122)%N then ascii_of_N (n - 32) else c.

Fixpoint upper (s : string) : string :=
  match s with
  | EmptyString => EmptyString
  | String c s' => String (upper_ascii c) (upper s')
  end.

Definition is_ascii (s : string) : bool :=
  forallb (λ c, (N_of_ascii c <? 128)%N) (String.list_ascii_of_string s).

(** Substring search, as [str.contains] does for a pattern without regex
    metacharacters. *)
Fixpoint contains (pat s : string) : bool :=
  String.prefix pat s ||
  match s with
  | EmptyString => false
  | String _ s' => contains pat s'
  end.

Definition bytes_are (c1 c2 : ascii) (n1 n2 : N) : bool :=
  (N_of_ascii c1 =? n1)%N && (N_of_ascii c2 =? n2)%N.

(** The characters [re.IGNORECASE] lets an ASCII letter of the pattern
    match: the letter in either case and, outside ASCII, the four letters
    that the case mappings tie to one: long s (U+017F) to [s], dotted
    capital I (U+0130) and dotless i (U+0131) to [i], the Kelvin sign
    (U+212A) to [k]. [casefold] writes each of them as the capital ASCII
    letter and keeps every other character. *)
Fixpoint casefold (s : string) : string :=
  match s with
  | EmptyString => EmptyString
  | String c s1 =>
      match s1 with
      | String c1 s2 =>
          if bytes_are c c1 197 191 then String "S" (casefold s2)
          else if bytes_are c c1 196 176 || bytes_are c c1 196 177
          then String "I" (casefold s2)
          else
            match s2 with
            | String c2 s3 =>
                if bytes_are c c1 226 132 && (N_of_ascii c2 =? 170)%N
                then String "K" (casefold s3)
                else String (upper_ascii c) (casefold s1)
            | EmptyString => String (upper_ascii c) (casefold s1)
            end
      | EmptyString => String (upper_ascii c) EmptyString
      end
  end.

(** [str.contains(pat, case=False)] for a pattern of ASCII letters, spaces
    and hyphens: a search for the pattern with characters compared as
    [re.IGNORECASE] compares them. *)
Definition contains_nocase (pat s : string) : bool :=
  contains (casefold pat) (casefold s).

(** Hashable values, up to Python's [==]: [True == 1 == 1.0]. *)
Inductive Key : Type :=
  | KNone
  | KNum (q : Q)
  | KStr (s : string).

#[global] Instance Q_eq_dec : EqDecision Q.
Proof. solve_decision. Defined.
#[global] Instance Key_eq_dec : EqDecision Key.
Proof. solve_decision. Defined.

(** [hash(x)]: lists and dicts are unhashable. *)
Definition py_hash (x : Json) : result Key :=
  match x with
  | JNull => Return KNone
  | JBool b => Return (KNum (if b then 1 else 0))
  | JNum q => Return (KNum (Qred q))
  | JStr s => Return (KStr s)
  | JArr _ | JObj _ => Raise TypeError
  end.

(** A [set] is kept as a duplicate-free list; [s.add(k)]. *)
Definition set_add (k : Key) (s : list Key) : list Key :=
  if decide (k ∈ s) then s else s ++ [k].

(** [set(l)] for a list of hashable values. *)
Definition py_set (l : list Json) : result (list Key) :=
  rbind (rmapM py_hash l) (λ ks, Return (remove_dups ks)).

Definition key_str (k : Key) : option string :=
  match k with
  | KStr s => Some s
  | _ => None
  end.

(** The order of [str]: code points, that is UTF-8 bytes, lexicographically. *)
Definition str_le (a b : string) : Prop := String.leb a b = true.

#[global] Instance str_le_dec : RelDecision str_le.
Proof. intros a b. unfold str_le. apply _. Defined.

(** [", ".join(sorted(s))]: [sorted] raises TypeError on values that do
    not compare, [join] raises TypeError on a value that is not a [str]. *)
Definition sorted_join (orgs : list Key) : result string :=
  match mapM key_str orgs with
  | Some names => Return (String.concat ", " (merge_sort str_le names))
  | None => Raise TypeError
  end.

(** ** Records *)

(** The dict [fetch_one] returns; title, method and resolution are the
    values found in the entry document, whatever their type. *)
Record Row : Type := {
  md_pdb_id : string;
  md_title : Json;
  md_method : Json;
  md_resolution : Json;
  md_organism : string;
  md_chain_count : nat
}.

(** A row of the frame with the column types of the data contract: title
    and method are [str], the resolution is a float or null (NaN). *)
Record EntryRecord : Type := {
  PDB_ID : string;
  Title : string;
  Method : string;
  Resolution : option Q;
  Organism : string;
  Chain_Count : nat
}.

(** A frame with the six columns, as the list of its rows. (The frame
    built from no row at all has no columns; indexing it by a column name
    raises KeyError, and it is not a value of this type.) *)
Definition DataFrame : Type := list EntryRecord.

(** [pd.DataFrame(rows)] on rows whose cells have the contract's types;
    other rows are outside the frame model. *)
Definition frame_row (md : Row) : option EntryRecord :=
  match md_title md, md_method md, md_resolution md with
  | JStr t, JStr m, JNum q =>
      Some {| PDB_ID := md_pdb_id md; Title := t; Method := m;
              Resolution := Some q; Organism := md_organism md;
              Chain_Count := md_chain_count md |}
  | JStr t, JStr m, JNull =>
      Some {| PDB_ID := md_pdb_id md; Title := t; Method := m;
              Resolution := None; Organism := md_organism md;
              Chain_Count := md_chain_count md |}
  | _, _, _ => None
  end.

(** A ZIP archive: its entries, name and content, in the order written. *)
Definition Archive : Type := list (string * string).

(** ** The remote services and the page *)

Inductive Request : Type :=
  | SearchPost (payload : Json)
      (* POST https://search.rcsb.org/rcsbsearch/v2/query, json=payload *)
  | EntryGet (eid : string)
      (* GET https://data.rcsb.org/rest/v1/core/entry/{eid} *)
  | PolymerEntityGet (eid : string) (ent : Json)
      (* GET https://data.rcsb.org/rest/v1/core/polymer_entity/{eid}/{ent} *)
  | DownloadGet (pdb_id : string).
      (* GET https://files.rcsb.org/download/{pdb_id}.pdb *)

(** [json_body = None]: the body does not parse, [r.json()] raises. *)
Record Response : Type := {
  ok : bool;
  json_body : option Json;
  text : string
}.

Definition Env : Type := Request → result Response.

Inductive Widget : Type :=
  | Subheader (body : string)
  | Dataframe (data : DataFrame)
  | Markdown (body : string)
  | Table (data : DataFrame)
  | DownloadButton (label : string) (data : Archive) (file_name mime : string)
  | Warning (body : string).

(** What the program does to the outside: requests and widgets. *)
Inductive Event : Type :=
  | Http (r : Request)
  | Shown (w : Widget).

(** Effectful computations: the log of events so far goes in, the extended
    log and a value or an exception come out. *)
Definition M (A : Type) : Type := list Event → list Event * result A.

Definition ret {A} (a : A) : M A := λ t, (t, Return a).

Definition bind {A B} (m : M A) (k : A → M B) : M B :=
  λ t, match m t with
       | (t', Return a) => k a t'
       | (t', Raise e) => (t', Raise e)
       end.

Definition lift {A} (r : result A) : M A := λ t, (t, r).

Notation "'let!' x ':=' c 'in' k" := (bind c (λ x, k))
  (at level 10, x pattern, c at level 100, k at level 200).

(** [requests.post] / [requests.get]. *)
Definition request (env : Env) (r : Request) : M Response :=
  λ t, (t ++ [Http r], env r).

(** [st.subheader], [st.table], ... *)
Definition show (w : Widget) : M unit :=
  λ t, (t ++ [Shown w], Return tt).

(** [r.json()]. *)
Definition json (r : Response) : result Json :=
  match json_body r with
  | Some j => Return j
  | None => Raise JSONDecodeError
  end.

(** [try: m  except: h] with a bare [except]. *)
Definition try_except {A} (m : M A) (h : M A) : M A :=
  λ t, match m t with
       | (t', Return a) => (t', Return a)
       | (t', Raise _) => h t'
       end.

(** ** Hybrid search: [search_entries] *)

Definition terminal (service : string) (parameters : Json) : Json :=
  JObj [("type", JStr "terminal"); ("service", JStr service);
        ("parameters", parameters)].

Definition text_node (attribute operator value : string) : Json :=
  terminal "text"
    (JObj [("attribute", JStr attribute); ("operator", JStr operator);
           ("value", JStr value)]).

Definition search_payload (query : Json) : Json :=
  JObj [("query", query);
        ("return_type", JStr "entry");
        ("request_options", JObj [("return_all_hits", JBool true)])].

Definition precise_payload (query : string) : Json :=
  search_payload
    (JObj [("type", JStr "group");
           ("logical_operator", JStr "or");
           ("nodes", JArr [
              text_node "struct.title" "contains_phrase" query;
              text_node "rcsb_polymer_entity.pdbx_description"
                        "contains_words" query;
              text_node "rcsb_entity_source_organism.gene.rcsb_gene_name.value"
                        "contains_words" (upper query)])]).

Definition fallback_payload (query : string) : Json :=
  search_payload (terminal "full_text" (JObj [("value", JStr query)])).

(** [[rec["identifier"] for rec in r.json().get("result_set", [])]
     if r.ok else []] *)
Definition identifiers (r : Response) : result (list Json) :=
  if ok r then
    rbind (json r) (λ j,
    rbind (py_get j "result_set" (JArr [])) (λ rs,
    rbind (py_iter rs) (λ recs,
    rmapM (λ rec, py_getitem rec "identifier") recs)))
  else Return [].

Section Search.
Variable env : Env.

Definition precise_query (query : string) : M (list Json) :=
  let! r := request env (SearchPost (precise_payload query)) in
  lift (identifiers r).

Definition fallback_full_text (query : string) : M (list Json) :=
  let! r := request env (SearchPost (fallback_payload query)) in
  lift (identifiers r).

(** The body of [search_entries]; the decorator of line 67 is
    [cache_data] below. *)
Definition search_entries (query : string) : M (list Json) :=
  let! results := precise_query query in
  match results with
  | _ :: _ => ret results
  | [] => fallback_full_text query
  end.
End Search.

(** ** [@st.cache_data] *)

(** The store behind the decorator: the values returned so far, by
    argument. *)
Definition Cache (V : Type) : Type := list (string * V).

(** A call whose argument is in the store returns the stored value and
    does not run the body; otherwise the body runs and its value, unless
    it raises, is stored and returned. *)
Definition cache_data {V} (body : string → M V) (cache : Cache V)
    (arg : string) : M (V * Cache V) :=
  match assoc arg cache with
  | Some v => ret (v, cache)
  | None =>
      let! v := body arg in
      ret (v, (arg, v) :: cache)
  end.

(** [search_entries] as the page calls it, under the decorator of line 67;
    [search_entries] above is the body of the function. *)
Definition cached_search_entries (env : Env)
    : Cache (list Json) → string → M (list Json * Cache (list Json)) :=
  cache_data (search_entries env).

(** ** Metadata fetcher: [fetch_all_metadata] *)

(** [", ".join(sorted(orgs)) or "Unknown"] *)
Definition organism_field (orgs : list Key) : result string :=
  rbind (sorted_join orgs) (λ joined,
  Return (if String.eqb joined "" then "Unknown" else joined)).

(** [len(set(chains))] *)
Definition chain_count_field (chains : list Json) : result nat :=
  rbind (py_set chains) (λ labels, Return (length labels)).

(** The value [orgs.add] receives from one polymer entity document, if the
    document reports a source organism:
    [src = pdj.get("rcsb_entity_source_organism", [])],
    [if src: orgs.add(src[0].get("scientific_name", "Unknown"))]. *)
Definition source_organism (pdj : Json) : result (option Key) :=
  rbind (py_get pdj "rcsb_entity_source_organism" (JArr [])) (λ src,
  if truthy src then
    rbind (py_getitem0 src) (λ src0,
    rbind (py_get src0 "scientific_name" (JStr "Unknown")) (λ name,
    rbind (py_hash name) (λ k, Return (Some k))))
  else Return None).

(** The items [chains +=] appends:
    [pdj.get("rcsb_polymer_entity_container_identifiers", {})
        .get("auth_asym_ids", [])]. *)
Definition auth_asym_ids (pdj : Json) : result (list Json) :=
  rbind (py_get pdj "rcsb_polymer_entity_container_identifiers" (JObj [])) (λ ids,
  rbind (py_get ids "auth_asym_ids" (JArr [])) py_iter).

(** The items the loop runs over:
    [ed.get("rcsb_entry_container_identifiers", {})
       .get("polymer_entity_ids", [])]. *)
Definition polymer_entity_ids (ed : Json) : result (list Json) :=
  rbind (py_get ed "rcsb_entry_container_identifiers" (JObj [])) (λ cont,
  rbind (py_get cont "polymer_entity_ids" (JArr [])) py_iter).

Definition add_organism (orgs : list Key) (name : option Key) : list Key :=
  match name with
  | Some k => set_add k orgs
  | None => orgs
  end.

Section Fetch.
Variable env : Env.

(** One turn of the loop over the polymer entities: the state is
    [(orgs, chains)]. *)
Definition polymer_step (eid : string) (acc : list Key * list Json)
    (ent : Json) : M (list Key * list Json) :=
  let! pe := request env (PolymerEntityGet eid ent) in
  let! pdj := lift (json pe) in
  let! name := lift (source_organism pdj) in
  let! labels := lift (auth_asym_ids pdj) in
  ret (add_organism acc.1 name, acc.2 ++ labels).

Fixpoint polymer_loop (eid : string) (acc : list Key * list Json)
    (ents : list Json) : M (list Key * list Json) :=
  match ents with
  | [] => ret acc
  | ent :: ents' =>
      let! acc' := polymer_step eid acc ent in
      polymer_loop eid acc' ents'
  end.

(** The body of the [try] in [fetch_one]. *)
Definition fetch_chain (eid : string) : M Row :=
  let! e := request env (EntryGet eid) in
  let! ed := lift (json e) in
  let! exptl := lift (py_get ed "exptl" (JArr [JObj []])) in
  let! exptl0 := lift (py_getitem0 exptl) in
  let! method := lift (py_get exptl0 "method" (JStr "Unknown")) in
  let! info := lift (py_get ed "rcsb_entry_info" (JObj [])) in
  let! combined := lift (py_get info "resolution_combined" (JArr [JNull])) in
  let! resolution := lift (py_getitem0 combined) in
  let! struct := lift (py_get ed "struct" (JObj [])) in
  let! title := lift (py_get struct "title" (JStr "No Title")) in
  let! ents := lift (polymer_entity_ids ed) in
  let! acc := polymer_loop eid ([], []) ents in
  let! organism := lift (organism_field acc.1) in
  let! count := lift (chain_count_field acc.2) in
  ret {| md_pdb_id := eid; md_title := title; md_method := method;
         md_resolution := resolution; md_organism := organism;
         md_chain_count := count |}.

(** [None] is Python's [None]. *)
Definition fetch_one (eid : string) : M (option Row) :=
  try_except (let! md := fetch_chain eid in ret (Some md)) (ret None).

(** What a worker's future holds: the value [fetch_one] returned or the
    exception it raised. The chains of a pool interleave their requests;
    the outcome of a chain does not depend on the log it starts from, so
    each is run on a log of its own. *)
Definition future (eid : string) : result (option Row) :=
  (fetch_one eid []).2.

Section Pool.
(** The order in which [as_completed] yields the futures. *)
Variable as_completed :
  list (result (option Row)) → list (result (option Row)).

(** [ThreadPoolExecutor(max_workers=n)] raises ValueError for [n <= 0];
    [if md:] keeps the dicts, which are never empty, and skips [None]. *)
Definition fetch_all_metadata (ids : list string) (max_threads : nat)
    : result (list Row) :=
  if Nat.eqb max_threads 0 then Raise ValueError
  else
    let futures := future <$> ids in
    rbind (rmapM (λ f : result (option Row), f) (as_completed futures))
          (λ mds, Return (omap (λ md : option Row, md) mds)).
End Pool.
End Fetch.

(** ** Filters *)

(** The options of the method select box. *)
Inductive MethodChoice : Set :=
  | Any
  | XRAY
  | ELECTRON_MICROSCOPY
  | NMR.

Definition method_name (m : MethodChoice) : string :=
  match m with
  | Any => "Any"
  | XRAY => "X-RAY"
  | ELECTRON_MICROSCOPY => "ELECTRON MICROSCOPY"
  | NMR => "NMR"
  end.

(** The sidebar controls read by the filter block. *)
Record Filters : Type := {
  only_human : bool;
  monomer_only : bool;
  max_res : Q;
  method_filter : MethodChoice
}.

(** [df[col].notnull()] and [df[col] <= max_res] on one cell; a comparison
    with NaN is false. *)
Definition notnull (r : option Q) : bool :=
  match r with
  | Some _ => true
  | None => false
  end.

Definition res_leb (r : option Q) (ceiling : Q) : bool :=
  match r with
  | Some q => Qle_bool q ceiling
  | None => false
  end.

(** Lines 197-204: boolean-mask indexing keeps the rows whose mask is true,
    in their order. *)
Definition filter_block (f : Filters) (df_all : DataFrame) : DataFrame :=
  let df := df_all in
  let df :=
    if only_human f
    then List.filter (λ r, contains "Homo sapiens" (Organism r)) df
    else df in
  let df :=
    if monomer_only f
    then List.filter (λ r, Nat.eqb (Chain_Count r) 1) df
    else df in
  let df :=
    match method_filter f with
    | Any => df
    | m => List.filter (λ r, contains_nocase (method_name m) (Method r)) df
    end in
  List.filter (λ r, notnull (Resolution r) && res_leb (Resolution r) (max_res f))
              df.

(** ** Ranking and export *)

(** The order [sort_values("Resolution (Å)")] sorts by: ascending, nulls
    last. *)
Definition res_le (a b : option Q) : Prop :=
  match a, b with
  | Some x, Some y => (x <= y)%Q
  | _, None => True
  | None, Some _ => False
  end.

Definition by_resolution (r1 r2 : EntryRecord) : Prop :=
  res_le (Resolution r1) (Resolution r2).

Definition is_xray (r : EntryRecord) : bool :=
  contains_nocase "X-RAY" (Method r).

Definition pdb_name (pdb_id : string) : string := (pdb_id ++ ".pdb")%string.

Section Display.
Variable env : Env.

(** [sort_values] on one column uses quicksort, which is not stable: the
    order among rows of equal resolution is left to the library. *)
Variable sort_values : DataFrame → DataFrame.

Definition top3 (df : DataFrame) : DataFrame :=
  take 3 (sort_values (List.filter is_xray df)).

(** The loop inside [with zipfile.ZipFile(buf, "w") as zipf]. *)
Fixpoint write_pdbs (ids : list string) (zipf : Archive) : M Archive :=
  match ids with
  | [] => ret zipf
  | pdb_id :: ids' =>
      let! r := request env (DownloadGet pdb_id) in
      write_pdbs ids' (zipf ++ [(pdb_name pdb_id, text r)])
  end.

Definition build_zip (ids : list string) : M Archive := write_pdbs ids [].

(** The body of [with tab1:]. *)
Definition tab1 (df : DataFrame) : M unit :=
  let! _ := show (Subheader "📄 Matching Structures") in
  let! _ := show (Dataframe (sort_values df)) in
  let top := top3 df in
  match top with
  | _ :: _ =>
      let! _ := show (Markdown "### 🏆 Top 3 X-ray Structures") in
      let! _ := show (Table top) in
      let! buf_all := build_zip (PDB_ID <$> df) in
      let! _ := show (DownloadButton "📥 Download All Filtered PDBs (ZIP)"
                        buf_all "filtered_structures.zip" "application/zip") in
      let! buf_top := build_zip (PDB_ID <$> top) in
      show (DownloadButton "📥 Download Top 3 PDBs (ZIP)"
              buf_top "top3_structures.zip" "application/zip")
  | [] => show (Warning "⚡ No X-ray structures available in filtered results.")
  end.
End Display.

(** ** 3D viewer: [view_structure_3d] *)

(** The py3Dmol view, as the calls made on it: its size, the models added
    with their format, the style set and whether [zoomTo] was called. *)
Record View : Type := {
  view_width : nat;
  view_height : nat;
  view_models : list (string * string);
  view_style : Json;
  view_zoomed : bool
}.

Definition view_structure_3d (env : Env) (pdb_id : string) : M View :=
  let! r := request env (DownloadGet pdb_id) in
  let pdb_txt := text r in
  ret {| view_width := 900; view_height := 600;
         view_models := [(pdb_txt, "pdb")];
         view_style := JObj [("cartoon", JObj [("color", JStr "spectrum")])];
         view_zoomed := true |}.

(** ** Session state *)

(** The three keys the page keeps in [st.session_state]; [None] stands for
    a session without the key "df". *)
Record Session : Type := {
  session_df : DataFrame;
  raw_count : nat;
  filtered_count : nat
}.

(** Lines 196-210: [df_all] is the frame [pd.DataFrame(rows)] of the rows
    fetched, then the filter block, then the warning or the three
    assignments; [n_entries] is [len(entries)]. A frame built from no row
    has no columns: the first column the filter block reads, at the latest
    the resolution on line 204, raises KeyError before [df.empty] is
    tested. *)
Definition filter_and_store (f : Filters) (n_entries : nat)
    (df_all : DataFrame) (state : option Session) : M (option Session) :=
  match df_all with
  | [] => lift (Raise KeyError)
  | _ :: _ =>
      let df := filter_block f df_all in
      match df with
      | [] =>
          let! _ := show (Warning "⚠️ No structures matched your filters.") in
          ret state
      | _ :: _ =>
          ret (Some {| session_df := df; raw_count := n_entries;
                       filtered_count := length df |})
      end
  end.

(** ** Notions used in the statements *)

(** A computation that only appends to the log, and whose outcome does
    not depend on the log it starts from. *)
Definition appends {A} (m : M A) : Prop :=
  ∀ t, m t = (t ++ (m []).1, (m []).2).

(** The documents a chain reads, as the services give them. *)
Definition entry_doc (env : Env) (eid : string) : result Json :=
  rbind (env (EntryGet eid)) json.

Definition entity_doc (env : Env) (eid : string) (ent : Json) : result Json :=
  rbind (env (PolymerEntityGet eid ent)) json.

(** The polymer entities of an entry, none if its document cannot be read. *)
Definition polymer_ids (env : Env) (eid : string) : list Json :=
  match rbind (entry_doc env eid) polymer_entity_ids with
  | Return ents => ents
  | Raise _ => []
  end.

(** The record of an identifier whose chain runs to its end. *)
Definition enriched (env : Env) (eid : string) : option Row :=
  match (fetch_chain env eid []).2 with
  | Return md => Some md
  | Raise _ => None
  end.

Definition polymer_request (eid : string) (ent : Json) : Event :=
  Http (PolymerEntityGet eid ent).

(** The conjunction of the predicates that are switched on. *)
Definition keeps (f : Filters) (r : EntryRecord) : bool :=
  implb (only_human f) (contains "Homo sapiens" (Organism r))
  && implb (monomer_only f) (Nat.eqb (Chain_Count r) 1)
  && match method_filter f with
     | Any => true
     | m => contains_nocase (method_name m) (Method r)
     end
  && (notnull (Resolution r) && res_leb (Resolution r) (max_res f)).

#[global] Instance res_le_dec : RelDecision res_le.
Proof. intros [x|] [y|]; simpl; try apply _. unfold Qle. apply _. Defined.

#[global] Instance by_resolution_dec : RelDecision by_resolution :=
  λ r1 r2, res_le_dec (Resolution r1) (Resolution r2).

(** A sort that meets what [sort_values] promises. *)
Definition sort_by_resolution : DataFrame → DataFrame :=
  merge_sort by_resolution.

(** Events of the export: a structure file request, a download button. *)
Definition is_export (ev : Event) : bool :=
  match ev with
  | Http (DownloadGet _) => true
  | Shown (DownloadButton _ _ _ _) => true
  | _ => false
  end.

(** The text the file service answers for a structure, whatever its
    status. *)
Definition file_text (env : Env) (pdb_id : string) : string :=
  match env (DownloadGet pdb_id) with
  | Return r => text r
  | Raise _ => ""
  end.

Definition download_request (pdb_id : string) : Event := Http (DownloadGet pdb_id).

Definition answered (env : Env) (pdb_id : string) : Prop :=
  ∃ r, env (DownloadGet pdb_id) = Return r.

(** The sessions the page can be in: without results at first, then
    whatever [filter_and_store] leaves after a search whose frame has at
    most one row per entry found. *)
Inductive reachable : option Session → Prop :=
  | reachable_start : reachable None
  | reachable_search f n df_all state t t' state' :
      reachable state →
      (length df_all ≤ n)%nat →
      filter_and_store f n df_all state t = (t', Return state') →
      reachable state'.

Definition is_hashable (c : Json) : bool :=
  match c with
  | JArr _ | JObj _ => false
  | _ => true
  end.

Definition key_of (c : Json) : Key :=
  match py_hash c with
  | Return k => k
  | Raise _ => KNone
  end.

(** ** Sample services, documents and frames *)

Definition http_ok (j : Json) : Response :=
  {| ok := true; json_body := Some j; text := "" |}.

Definition http_error : Response :=
  {| ok := false; json_body := None; text := "Service Unavailable" |}.

Definition result_set (ids : list string) : Json :=
  JObj [("total_count", JNum (inject_Z (Z.of_nat (List.length ids))));
        ("result_set",
         JArr ((λ i, JObj [("identifier", JStr i); ("score", JNum 1)]) <$> ids))].

(** Whether a search document is the full-text one. *)
Definition is_full_text (payload : Json) : bool :=
  match rbind (py_get payload "query" JNull) (λ q, py_get q "service" JNull) with
  | Return (JStr s) => String.eqb s "full_text"
  | _ => false
  end.

(** A search service that answers the precise query with [precise] and the
    full-text query with [full_text]; the other services are down. *)
Definition search_service (precise full_text : result Response) : Env :=
  λ r, match r with
       | SearchPost payload =>
           if is_full_text payload then full_text else precise
       | _ => Raise ConnectionError
       end.

Definition egfr_hits : Response := http_ok (result_set ["1M17"; "2ITY"]).
Definition egfr_text_hits : Response := http_ok (result_set ["4HJO"]).

Definition entry_json (method : string) (resolution : Json) (title : string)
    (ents : list string) : Json :=
  JObj [("exptl", JArr [JObj [("method", JStr method)]]);
        ("rcsb_entry_info", JObj [("resolution_combined", JArr [resolution])]);
        ("struct", JObj [("title", JStr title)]);
        ("rcsb_entry_container_identifiers",
         JObj [("polymer_entity_ids", JArr (JStr <$> ents))])].

Definition entity_json (organisms chains : list string) : Json :=
  JObj [("rcsb_entity_source_organism",
         JArr ((λ o, JObj [("scientific_name", JStr o)]) <$> organisms));
        ("rcsb_polymer_entity_container_identifiers",
         JObj [("auth_asym_ids", JArr (JStr <$> chains))])].

Definition not_found : Response :=
  {| ok := false; json_body := Some (JObj [("status", JNum 404)]);
     text := "Not Found" |}.

(** A data service: 1M17 has two polymer entities that share chain B,
    2ITY times out, 5DFT reports no source organism, the only organism name
    of 7SYN is the empty string, the body of 8BAD is not JSON, the [exptl]
    list of 9EMP is empty, and any other entry is answered 404. *)
Definition data_service : Env :=
  λ r, match r with
       | EntryGet eid =>
           if String.eqb eid "1M17" then
             Return (http_ok (entry_json "X-RAY DIFFRACTION" (JNum (26 # 10))
                                "EGFR tyrosine kinase domain" ["1"; "2"]))
           else if String.eqb eid "2ITY" then Raise ReadTimeout
           else if String.eqb eid "5DFT" then
             Return (http_ok (entry_json "SOLUTION NMR" JNull
                                "Designed peptide" ["1"]))
           else if String.eqb eid "7SYN" then
             Return (http_ok (entry_json "X-RAY DIFFRACTION" (JNum (19 # 10))
                                "Synthetic construct" ["1"]))
           else if String.eqb eid "8BAD" then
             Return {| ok := true; json_body := None; text := "<html>" |}
           else if String.eqb eid "9EMP" then
             Return (http_ok (JObj [("exptl", JArr [])]))
           else Return not_found
       | PolymerEntityGet eid (JStr ent) =>
           if String.eqb eid "1M17" then
             if String.eqb ent "1"
             then Return (http_ok (entity_json ["Homo sapiens"] ["A"; "B"]))
             else Return (http_ok (entity_json ["Mus musculus"; "Homo sapiens"]
                                               ["B"; "C"]))
           else if String.eqb eid "5DFT" then
             Return (http_ok (entity_json [] ["A"]))
           else if String.eqb eid "7SYN" then
             Return (http_ok (entity_json [""] ["A"]))
           else Return not_found
       | _ => Raise ConnectionError
       end.

Definition record (pdb_id method : string) (resolution : option Q)
    (organism : string) (chains : nat) : EntryRecord :=
  {| PDB_ID := pdb_id; Title := "Structure " ++ pdb_id; Method := method;
     Resolution := resolution; Organism := organism; Chain_Count := chains |}.

Definition sample_frame : DataFrame :=
  [ record "1AAA" "X-RAY DIFFRACTION" (Some (21 # 10)) "Homo sapiens" 1;
    record "2BBB" "SOLUTION NMR" None "Homo sapiens" 1;
    record "3CCC" "X-ray diffraction" (Some (10 # 10)) "Homo sapiens, Mus musculus" 1;
    record "4DDD" "ELECTRON MICROSCOPY" (Some (34 # 10)) "Homo sapiens" 4;
    record "5EEE" "X-RAY DIFFRACTION" (Some (18 # 10)) "Mus musculus" 1;
    record "6FFF" "X-RAY DIFFRACTION" (Some (9 # 10)) "Homo sapiens" 2 ].

Definition loosest : Filters :=
  {| only_human := false; monomer_only := false; max_res := 5;
     method_filter := Any |}.

(** Four X-ray structures with resolutions 2.1, 1.0, 1.8 and 0.9. *)
Definition xray_frame : DataFrame :=
  [ record "1AAA" "X-RAY DIFFRACTION" (Some (21 # 10)) "Homo sapiens" 1;
    record "3CCC" "X-RAY DIFFRACTION" (Some (10 # 10)) "Homo sapiens" 1;
    record "5EEE" "X-RAY DIFFRACTION" (Some (18 # 10)) "Homo sapiens" 1;
    record "6FFF" "X-RAY DIFFRACTION" (Some (9 # 10)) "Homo sapiens" 1 ].

Definition nmr_frame : DataFrame :=
  [ record "2BBB" "SOLUTION NMR" (Some (30 # 10)) "Homo sapiens" 1;
    record "4DDD" "ELECTRON MICROSCOPY" (Some (34 # 10)) "Homo sapiens" 1 ].

(** A file service that has every structure file. *)
Definition file_service : Env :=
  λ r, match r with
       | DownloadGet pdb_id =>
           Return {| ok := true; json_body := None;
                     text := "HEADER    " ++ pdb_id |}
       | _ => Raise ConnectionError
       end.

Definition error_pages (env : Env) : Env :=
  λ req, match env req with
         | Return r => Return {| ok := false; json_body := json_body r;
                                 text := "error" |}
         | Raise e => Raise e
         end.

(** A file service that has lost one structure. *)
Definition file_service_without (missing : string) : Env :=
  λ r, match r with
       | DownloadGet pdb_id =>
           if String.eqb pdb_id missing then Raise ConnectionError
           else file_service r
       | _ => file_service r
       end.

Definition sample_session : Session :=
  {| session_df := filter_block loosest sample_frame; raw_count := 8;
     filtered_count := 5 |}.

(** ** Search: theorems *)

Lemma bind_Return {A B} (m : M A) (k : A → M B) t t' a :
  m t = (t', Return a) → bind m k t = k a t'.
Proof. intros H. unfold bind. by rewrite H. Qed.

Lemma bind_Raise {A B} (m : M A) (k : A → M B) t t' e :
  m t = (t', Raise e) → bind m k t = (t', Raise e).
Proof. intros H. unfold bind. by rewrite H. Qed.

Lemma precise_query_unfold env query t :
  precise_query env query t =
    (t ++ [Http (SearchPost (precise_payload query))],
     rbind (env (SearchPost (precise_payload query))) identifiers).
Proof.
  unfold precise_query, bind, request, lift.
  by destruct (env _).
Qed.

Lemma fallback_full_text_unfold env query t :
  fallback_full_text env query t =
    (t ++ [Http (SearchPost (fallback_payload query))],
     rbind (env (SearchPost (fallback_payload query))) identifiers).
Proof.
  unfold fallback_full_text, bind, request, lift.
  by destruct (env _).
Qed.

Lemma identifiers_not_ok r : ok r = false → identifiers r = Return [].
Proof. intros H. unfold identifiers. by rewrite H. Qed.

(** C1. [search_entries] returns the list of the precise query when that
    list is non-empty, and otherwise exactly what the full-text query
    returns; a returned list is the one or the other, never a mixture, and
    it is empty exactly when both queries return the empty list. It holds
    for every query string, the non-empty ones the page passes among them. *)
Theorem search_entries_precise_else_fallback
    (env : Env) (query : string) (t : list Event) :
  (∀ t1 ids, precise_query env query t = (t1, Return ids) → ids ≠ [] →
     search_entries env query t = (t1, Return ids)) ∧
  (∀ t1, precise_query env query t = (t1, Return []) →
     search_entries env query t = fallback_full_text env query t1) ∧
  (∀ t2 ids, search_entries env query t = (t2, Return ids) →
     (precise_query env query t = (t2, Return ids) ∧ ids ≠ []) ∨
     (∃ t1, precise_query env query t = (t1, Return []) ∧
            fallback_full_text env query t1 = (t2, Return ids))) ∧
  (∀ t2, search_entries env query t = (t2, Return []) ↔
     ∃ t1, precise_query env query t = (t1, Return []) ∧
           fallback_full_text env query t1 = (t2, Return [])).
Proof.
  unfold search_entries, bind.
  destruct (precise_query env query t) as [t1 [[|id ids]|e]] eqn:Hp.
  - repeat split.
    + intros ? ? [= <- <-] Hne. by destruct Hne.
    + by intros ? [= <-].
    + intros t2 ids H. right. by exists t1.
    + intros H. by exists t1.
    + by intros (? & [= <-] & ?).
  - repeat split.
    + by intros ? ? [= <- <-] _.
    + intros ? [=].
    + intros t2 ids' [= <- <-]. by left.
    + intros [=].
    + intros (? & [=] & _).
  - repeat split.
    + intros ? ? [=].
    + intros ? [=].
    + intros ? ? [=].
    + intros [=].
    + intros (? & [=] & _).
Qed.

Example search_entries_precise_hit :
  (search_entries (search_service (Return egfr_hits) (Return egfr_text_hits))
                  "egfr" []).2
  = Return [JStr "1M17"; JStr "2ITY"].
Proof. reflexivity. Qed.

Example search_entries_fallback_hit :
  search_entries (search_service (Return (http_ok (result_set [])))
                                 (Return egfr_text_hits)) "egfr" []
  = ([Http (SearchPost (precise_payload "egfr"));
      Http (SearchPost (fallback_payload "egfr"))],
     Return [JStr "4HJO"]).
Proof. reflexivity. Qed.

(** The precise query cannot be sent, the full-text query would have found
    an entry: the exception of [requests.post] leaves [search_entries]. *)
Lemma search_entries_raises_on_network_failure :
  search_entries (search_service (Raise ConnectionError) (Return egfr_text_hits))
                 "egfr" []
  = ([Http (SearchPost (precise_payload "egfr"))], Raise ConnectionError)
  ∧ ¬ (∀ (env : Env) (query : string) (t : list Event),
         ∃ ids, (search_entries env query t).2 = Return ids).
Proof.
  split; [reflexivity|].
  intros H.
  destruct (H (search_service (Raise ConnectionError) (Return egfr_text_hits))
              "egfr" []) as [ids Hids].
  discriminate Hids.
Qed.

(** C5, amended. A response with an error status on either search call
    counts as zero results for that call and raises nothing; when both
    calls are answered with an error status the caller gets the empty
    list. A request that fails without a response is not absorbed: its
    exception leaves [search_entries], from the precise call always and
    from the full-text call when that one is reached. *)
Theorem search_entries_http_failure
    (env : Env) (query : string) (t : list Event) :
  let p := SearchPost (precise_payload query) in
  let f := SearchPost (fallback_payload query) in
  (∀ r, env p = Return r → ok r = false →
     precise_query env query t = (t ++ [Http p], Return []) ∧
     search_entries env query t = fallback_full_text env query (t ++ [Http p])) ∧
  (∀ r, env f = Return r → ok r = false →
     fallback_full_text env query t = (t ++ [Http f], Return [])) ∧
  (∀ r r', env p = Return r → ok r = false → env f = Return r' → ok r' = false →
     search_entries env query t = (t ++ [Http p; Http f], Return [])) ∧
  (∀ e, env p = Raise e →
     search_entries env query t = (t ++ [Http p], Raise e)) ∧
  (∀ r e, env p = Return r → ok r = false → env f = Raise e →
     search_entries env query t = (t ++ [Http p; Http f], Raise e)).
Proof.
  intros p f.
  assert (Hp : ∀ r, env p = Return r → ok r = false →
            precise_query env query t = (t ++ [Http p], Return [])).
  { intros r Hr Hok. rewrite precise_query_unfold. fold p. rewrite Hr. simpl.
    by rewrite identifiers_not_ok. }
  assert (Hf : ∀ t' r, env f = Return r → ok r = false →
            fallback_full_text env query t' = (t' ++ [Http f], Return [])).
  { intros t' r Hr Hok. rewrite fallback_full_text_unfold. fold f. rewrite Hr.
    simpl. by rewrite identifiers_not_ok. }
  split_and!.
  - intros r Hr Hok. split; [by eauto|]. unfold search_entries.
    by rewrite (bind_Return _ _ _ _ _ (Hp r Hr Hok)).
  - eauto.
  - intros r r' Hr Hok Hr' Hok'. unfold search_entries.
    rewrite (bind_Return _ _ _ _ _ (Hp r Hr Hok)).
    rewrite (Hf _ r' Hr' Hok'). by rewrite <- app_assoc.
  - intros e He. unfold search_entries.
    apply bind_Raise. rewrite precise_query_unfold. fold p. by rewrite He.
  - intros r e Hr Hok He. unfold search_entries.
    rewrite (bind_Return _ _ _ _ _ (Hp r Hr Hok)).
    rewrite fallback_full_text_unfold. fold f. rewrite He. simpl.
    by rewrite <- app_assoc.
Qed.

Example search_entries_both_unavailable :
  search_entries (search_service (Return http_error) (Return http_error))
                 "egfr" []
  = ([Http (SearchPost (precise_payload "egfr"));
      Http (SearchPost (fallback_payload "egfr"))],
     Return []).
Proof. reflexivity. Qed.

(** ** Metadata fetcher: theorems *)

Lemma bind_lift {A B} (r : result A) (k : A → M B) t :
  bind (lift r) k t = match r with
                      | Return a => k a t
                      | Raise e => (t, Raise e)
                      end.
Proof. unfold bind, lift. by destruct r. Qed.

Lemma bind_inv_Return {A B} (m : M A) (k : A → M B) t t' b :
  bind m k t = (t', Return b) →
  ∃ t1 a, m t = (t1, Return a) ∧ k a t1 = (t', Return b).
Proof.
  unfold bind. destruct (m t) as [t1 [a|e]]; [|done].
  intros H. by exists t1, a.
Qed.

Lemma polymer_step_unfold env eid acc ent t :
  polymer_step env eid acc ent t =
    (t ++ [polymer_request eid ent],
     rbind (entity_doc env eid ent) (λ pdj,
     rbind (source_organism pdj) (λ name,
     rbind (auth_asym_ids pdj) (λ labels,
     Return (add_organism acc.1 name, acc.2 ++ labels))))).
Proof.
  unfold polymer_step, entity_doc, bind, request, lift, ret; simpl.
  destruct (env _) as [pe|]; simpl; [|done].
  destruct (json pe) as [pdj|]; simpl; [|done].
  destruct (source_organism pdj); simpl; [|done].
  by destruct (auth_asym_ids pdj).
Qed.

(** The loop asks for each polymer entity once, in order, and stops at the
    first one that raises. *)
Lemma polymer_loop_log env eid ents : ∀ acc t t' r,
  polymer_loop env eid acc ents t = (t', r) →
  ∃ n, t' = t ++ (polymer_request eid <$> take n ents).
Proof.
  induction ents as [|ent ents IH]; intros acc t t' r; simpl.
  - intros [= <- <-]. exists 0. by rewrite app_nil_r.
  - unfold bind. rewrite polymer_step_unfold.
    destruct (rbind (entity_doc env eid ent) _) as [acc'|e].
    + intros H. apply IH in H as [n ->]. exists (S n).
      by rewrite <- app_assoc.
    + intros [= <- <-]. by exists 1.
Qed.

Lemma polymer_loop_Return env eid ents : ∀ acc t t' acc',
  polymer_loop env eid acc ents t = (t', Return acc') →
  ∃ docs names labels,
    rmapM (entity_doc env eid) ents = Return docs ∧
    rmapM source_organism docs = Return names ∧
    rmapM auth_asym_ids docs = Return labels ∧
    acc'.1 = foldl add_organism acc.1 names ∧
    acc'.2 = acc.2 ++ concat labels.
Proof.
  induction ents as [|ent ents IH]; intros acc t t' acc'; simpl.
  - intros [= <- <-]. exists [], [], []. by rewrite app_nil_r.
  - unfold bind. rewrite polymer_step_unfold.
    destruct (entity_doc env eid ent) as [pdj|]; simpl; [|done].
    destruct (source_organism pdj) as [name|] eqn:Hname; simpl; [|done].
    destruct (auth_asym_ids pdj) as [ls|] eqn:Hls; simpl; [|done].
    intros H. apply IH in H as (docs & names & labels & -> & Hn & Hl & Ho & Hc).
    exists (pdj :: docs), (name :: names), (ls :: labels); simpl.
    rewrite Hname, Hn, Hls, Hl; simpl.
    simpl in Ho, Hc. split_and!; [done..|]. by rewrite Hc, <- app_assoc.
Qed.

Lemma fetch_chain_Return env eid t t' md :
  fetch_chain env eid t = (t', Return md) →
  ∃ ed ents docs names labels,
    entry_doc env eid = Return ed ∧
    polymer_entity_ids ed = Return ents ∧
    rmapM (entity_doc env eid) ents = Return docs ∧
    rmapM source_organism docs = Return names ∧
    rmapM auth_asym_ids docs = Return labels ∧
    organism_field (foldl add_organism [] names) = Return (md_organism md) ∧
    chain_count_field (concat labels) = Return (md_chain_count md) ∧
    md_pdb_id md = eid.
Proof.
  unfold fetch_chain, entry_doc.
  intros H. apply bind_inv_Return in H as (t1 & e & He & H).
  unfold request in He. injection He as <- He. rewrite He; simpl.
  repeat (rewrite bind_lift in H;
          match type of H with
          | match ?r with Return _ => _ | Raise _ => _ end = _ =>
              destruct r eqn:?; [|done]
          end).
  apply bind_inv_Return in H as (t2 & [orgs chains] & Hloop & H).
  apply polymer_loop_Return in Hloop
    as (docs & names & labels & Hd & Hn & Hl & Ho & Hc).
  simpl in *.
  repeat (rewrite bind_lift in H;
          match type of H with
          | match ?r with Return _ => _ | Raise _ => _ end = _ =>
              destruct r eqn:?; [|done]
          end).
  injection H as <- <-; simpl.
  eexists _, _, docs, names, labels. subst.
  split_and!; done.
Qed.

Lemma fetch_chain_log env eid t t' r :
  fetch_chain env eid t = (t', r) →
  ∃ n, t' = t ++ Http (EntryGet eid)
                :: (polymer_request eid <$> take n (polymer_ids env eid)).
Proof.
  unfold fetch_chain, polymer_ids, entry_doc.
  unfold bind at 1. unfold request at 1.
  destruct (env (EntryGet eid)) as [e|]; simpl;
    [|intros [= <- <-]; by exists 0].
  rewrite bind_lift.
  destruct (json e) as [ed|]; simpl; [|intros [= <- <-]; by exists 0].
  do 8 (rewrite bind_lift;
        match goal with
        | |- match ?r with Return _ => _ | Raise _ => _ end = _ → _ =>
            destruct r eqn:?; [|intros [= <- <-]; by exists 0]
        end).
  rewrite bind_lift.
  destruct (polymer_entity_ids ed) as [ents|]; [|intros [= <- <-]; by exists 0].
  unfold bind at 1.
  destruct (polymer_loop _ _ _ _ _) as [t2 [acc|]] eqn:Hloop;
    apply polymer_loop_log in Hloop as [n ->].
  - intros H. exists n.
    repeat (rewrite bind_lift in H;
            match type of H with
            | match ?r with Return _ => _ | Raise _ => _ end = _ =>
                destruct r
            end); injection H as <- _; by rewrite <- app_assoc.
  - intros [= <- <-]. exists n. by rewrite <- app_assoc.
Qed.

(** The order of strings is a total order. *)
Lemma compare_not_Gt_trans a : ∀ b c,
  String.compare a b ≠ Gt → String.compare b c ≠ Gt → String.compare a c ≠ Gt.
Proof.
  induction a as [|x a IH]; intros [|y b] [|z c]; simpl; try done.
  unfold Ascii.compare.
  destruct (N.compare_spec (N_of_ascii x) (N_of_ascii y)) as [Hxy|Hxy|Hxy],
           (N.compare_spec (N_of_ascii y) (N_of_ascii z)) as [Hyz|Hyz|Hyz],
           (N.compare_spec (N_of_ascii x) (N_of_ascii z)) as [Hxz|Hxz|Hxz];
    try done; try lia.
  apply IH.
Qed.

#[global] Instance str_le_trans : Transitive str_le.
Proof.
  intros a b c. unfold str_le, String.leb.
  pose proof (compare_not_Gt_trans a b c) as H.
  destruct (String.compare a b), (String.compare b c), (String.compare a c);
    try done; intros; exfalso; by apply H.
Qed.

#[global] Instance str_le_total : Total str_le.
Proof. intros a b. apply String.leb_total. Qed.

#[global] Instance str_le_antisym : AntiSymm (=) str_le.
Proof. intros a b. apply String.leb_antisym. Qed.

Lemma string_app_nil (a b : string) : (a ++ b)%string = "" → a = "" ∧ b = "".
Proof. destruct a; [done|]. simpl. discriminate. Qed.

(** [", ".join(l)] is the empty string only for no item or one empty item. *)
Lemma join_empty_iff (l : list string) :
  String.concat ", " l = "" ↔ l = [] ∨ l = [""].
Proof.
  split.
  - destruct l as [|a [|b l]]; simpl.
    + by left.
    + intros ->. by right.
    + intros H. apply string_app_nil in H as [_ H]. discriminate H.
  - by intros [-> | ->].
Qed.

Lemma mapM_key_str orgs names :
  mapM key_str orgs = Some names → orgs = KStr <$> names.
Proof.
  revert names. induction orgs as [|k orgs IH]; intros names; simpl.
  - by intros [= <-].
  - destruct k as [| |s]; simpl; try done.
    destruct (mapM key_str orgs) as [ss|]; simpl; [|done].
    intros [= <-]. simpl. by rewrite (IH ss).
Qed.

Lemma set_add_NoDup k s : NoDup s → NoDup (set_add k s).
Proof.
  intros H. unfold set_add. case_decide; [done|].
  apply NoDup_app. split_and!; [done| |apply NoDup_singleton].
  intros x Hx ->%list_elem_of_singleton. done.
Qed.

Lemma elem_of_set_add x k s : x ∈ set_add k s ↔ x = k ∨ x ∈ s.
Proof.
  unfold set_add. case_decide.
  - split; [by right|]. by intros [->|].
  - rewrite elem_of_app, list_elem_of_singleton. tauto.
Qed.

Lemma foldl_add_organism_NoDup names : ∀ orgs,
  NoDup orgs → NoDup (foldl add_organism orgs names).
Proof.
  induction names as [|[k|] names IH]; intros orgs H; simpl; [done|..].
  - by apply IH, set_add_NoDup.
  - by apply IH.
Qed.

Lemma elem_of_foldl_add_organism names : ∀ orgs k,
  k ∈ foldl add_organism orgs names ↔ k ∈ orgs ∨ Some k ∈ names.
Proof.
  induction names as [|[k'|] names IH]; intros orgs k; simpl.
  - rewrite elem_of_nil. tauto.
  - rewrite IH, elem_of_set_add, elem_of_cons. split.
    + intros [[->|]|]; auto.
    + intros [|[[= ->]|]]; auto.
  - rewrite IH, elem_of_cons. split.
    + intros [|]; auto.
    + intros [|[[=]|]]; auto.
Qed.

Lemma appends_lift {A} (r : result A) : appends (lift r).
Proof. intros t. unfold lift. simpl. by rewrite app_nil_r. Qed.

Lemma appends_ret {A} (a : A) : appends (ret a).
Proof. intros t. unfold ret. simpl. by rewrite app_nil_r. Qed.

Lemma appends_request env r : appends (request env r).
Proof. by intros t. Qed.

Lemma appends_bind {A B} (m : M A) (k : A → M B) :
  appends m → (∀ a, appends (k a)) → appends (bind m k).
Proof.
  intros Hm Hk t. unfold bind. rewrite (Hm t).
  destruct (m []) as [tm [a|e]]; simpl.
  - rewrite (Hk a (t ++ tm)), (Hk a tm). simpl. by rewrite app_assoc.
  - done.
Qed.

Lemma appends_polymer_loop env eid ents : ∀ acc,
  appends (polymer_loop env eid acc ents).
Proof.
  induction ents as [|ent ents IH]; intros acc; simpl.
  - apply appends_ret.
  - apply appends_bind; [|done].
    unfold polymer_step.
    repeat (apply appends_bind; [first [apply appends_request|apply appends_lift]|intros]).
    apply appends_ret.
Qed.

Lemma appends_fetch_chain env eid : appends (fetch_chain env eid).
Proof.
  unfold fetch_chain.
  repeat (apply appends_bind;
          [first [apply appends_request|apply appends_lift
                 |apply appends_polymer_loop]|intros]).
  apply appends_ret.
Qed.

Lemma fetch_one_unfold env eid t :
  fetch_one env eid t =
    match fetch_chain env eid t with
    | (t', Return md) => (t', Return (Some md))
    | (t', Raise _) => (t', Return None)
    end.
Proof.
  unfold fetch_one, try_except, bind, ret.
  by destruct (fetch_chain env eid t) as [t' [md|e]].
Qed.

Lemma future_enriched env eid : future env eid = Return (enriched env eid).
Proof.
  unfold future, enriched. rewrite fetch_one_unfold.
  by destruct (fetch_chain env eid []) as [t' [md|e]].
Qed.

Lemma omap_fmap_id {A B} (f : A → option B) (l : list A) :
  omap (λ o : option B, o) (f <$> l) = omap f l.
Proof.
  induction l as [|x l IH]; [done|].
  rewrite fmap_cons. cbn [omap list_omap]. by rewrite IH.
Qed.

Lemma rmapM_Return {A} (vs : list A) :
  rmapM (λ f : result A, f) (Return <$> vs) = Return vs.
Proof.
  induction vs as [|v vs IH]; [done|].
  rewrite fmap_cons. cbn [rmapM rbind]. by rewrite IH.
Qed.

Example fetch_one_1M17 :
  fetch_one data_service "1M17" []
  = ([Http (EntryGet "1M17");
      Http (PolymerEntityGet "1M17" (JStr "1"));
      Http (PolymerEntityGet "1M17" (JStr "2"))],
     Return (Some {| md_pdb_id := "1M17";
                     md_title := JStr "EGFR tyrosine kinase domain";
                     md_method := JStr "X-RAY DIFFRACTION";
                     md_resolution := JNum (26 # 10);
                     md_organism := "Homo sapiens, Mus musculus";
                     md_chain_count := 3 |})).
Proof. vm_compute. reflexivity. Qed.

(** A document without the fields does not raise: the defaults of [get]
    fill the record. *)
Example fetch_one_defaults :
  (fetch_one data_service "0000" []).2
  = Return (Some {| md_pdb_id := "0000";
                    md_title := JStr "No Title";
                    md_method := JStr "Unknown";
                    md_resolution := JNull;
                    md_organism := "Unknown";
                    md_chain_count := 0 |}).
Proof. vm_compute. reflexivity. Qed.

(** A body that does not parse and a list without its first item raise,
    and the identifier gives no record. *)
Example fetch_one_malformed :
  fetch_one data_service "8BAD" [] = ([Http (EntryGet "8BAD")], Return None)
  ∧ (fetch_chain data_service "8BAD" []).2 = Raise JSONDecodeError
  ∧ fetch_one data_service "9EMP" [] = ([Http (EntryGet "9EMP")], Return None)
  ∧ (fetch_chain data_service "9EMP" []).2 = Raise IndexError.
Proof. split_and!; reflexivity. Qed.

(** C2. An identifier whose fetch chain raises, whatever the exception,
    contributes no record: [fetch_one] returns [None] for it and raises
    nothing, its requests are the entry request followed by one request for
    each polymer entity up to the failing one, none of them repeated, and the
    frame holds exactly the records of the other identifiers. *)
Theorem fetch_failure_drops_identifier
    (env : Env)
    (as_completed : list (result (option Row)) → list (result (option Row)))
    (ids1 ids2 : list string) (eid : string) (max_threads : nat) (e : PyExc) :
  (∀ l, as_completed l ≡ₚ l) →
  0 < max_threads →
  (fetch_chain env eid []).2 = Raise e →
  (∀ t, ∃ n, fetch_one env eid t
             = (t ++ Http (EntryGet eid)
                  :: (polymer_request eid <$> take n (polymer_ids env eid)),
                Return None)) ∧
  ∃ rows,
    fetch_all_metadata env as_completed (ids1 ++ eid :: ids2) max_threads
      = Return rows ∧
    rows ≡ₚ omap (enriched env) (ids1 ++ ids2).
Proof.
  intros Hperm Hn He. split.
  - intros t. rewrite fetch_one_unfold.
    destruct (fetch_chain env eid t) as [t' r] eqn:Hc.
    assert (r = Raise e) as ->.
    { rewrite appends_fetch_chain in Hc. injection Hc as _ <-. exact He. }
    apply fetch_chain_log in Hc as [n ->]. by exists n.
  - unfold fetch_all_metadata.
    destruct max_threads; [lia|]. simpl Nat.eqb. cbv iota.
    set (ids := ids1 ++ eid :: ids2).
    assert (Hfut : future env <$> ids = Return <$> (enriched env <$> ids)).
    { rewrite <- list_fmap_compose. apply list_fmap_ext.
      intros ? x _. apply future_enriched. }
    rewrite Hfut.
    pose proof (Hperm (Return <$> (enriched env <$> ids))) as Hp.
    apply (Permutation_map_inv (@Return (option Row))) in Hp
      as (mds & -> & Hmds).
    change (map Return mds) with (Return <$> mds).
    rewrite rmapM_Return. simpl.
    eexists; split; [done|].
    rewrite <- Hmds, omap_fmap_id. unfold ids.
    rewrite !omap_app. simpl.
    unfold enriched at 2. by rewrite He.
Qed.

Lemma fetch_failure_drops_identifier_witness :
  (∀ t, ∃ n, fetch_one data_service "2ITY" t
             = (t ++ Http (EntryGet "2ITY")
                  :: (polymer_request "2ITY"
                        <$> take n (polymer_ids data_service "2ITY")),
                Return None)) ∧
  ∃ rows,
    fetch_all_metadata data_service reverse (["1M17"] ++ "2ITY" :: ["5DFT"]) 10
      = Return rows ∧
    rows ≡ₚ omap (enriched data_service) (["1M17"] ++ ["5DFT"]).
Proof.
  apply (fetch_failure_drops_identifier data_service reverse
           ["1M17"] ["5DFT"] "2ITY" 10 ReadTimeout).
  - intros l. apply reverse_Permutation.
  - lia.
  - reflexivity.
Defined.

Example fetch_all_metadata_sample :
  fetch_all_metadata data_service reverse ["1M17"; "2ITY"; "5DFT"] 10
  = Return [ {| md_pdb_id := "5DFT"; md_title := JStr "Designed peptide";
                md_method := JStr "SOLUTION NMR"; md_resolution := JNull;
                md_organism := "Unknown"; md_chain_count := 1 |};
             {| md_pdb_id := "1M17";
                md_title := JStr "EGFR tyrosine kinase domain";
                md_method := JStr "X-RAY DIFFRACTION";
                md_resolution := JNum (26 # 10);
                md_organism := "Homo sapiens, Mus musculus";
                md_chain_count := 3 |} ].
Proof. vm_compute. reflexivity. Qed.

(** C6. The chain count of an enriched entry is the number of distinct
    chain labels among the labels of all its polymer entities taken
    together: it is the length of a duplicate-free list holding exactly
    those labels, so a label that several entities share counts once, and
    the number of entities plays no part. *)
Theorem chain_count_counts_distinct_labels
    (env : Env) (eid : string) (t t' : list Event) (md : Row) :
  fetch_one env eid t = (t', Return (Some md)) →
  ∃ ed ents docs labels keys,
    entry_doc env eid = Return ed ∧
    polymer_entity_ids ed = Return ents ∧
    rmapM (entity_doc env eid) ents = Return docs ∧
    rmapM auth_asym_ids docs = Return labels ∧
    rmapM py_hash (concat labels) = Return keys ∧
    md_chain_count md = length (remove_dups keys) ∧
    NoDup (remove_dups keys) ∧
    (∀ k, k ∈ remove_dups keys ↔ k ∈ keys).
Proof.
  rewrite fetch_one_unfold.
  destruct (fetch_chain env eid t) as [t1 [md'|e]] eqn:Hc; [|done].
  intros [= -> ->].
  apply fetch_chain_Return in Hc
    as (ed & ents & docs & names & labels & Hed & Hents & Hdocs & _ & Hl & _ & Hcc & _).
  unfold chain_count_field, py_set in Hcc.
  destruct (rmapM py_hash (concat labels)) as [keys|] eqn:Hk; [|done].
  simpl in Hcc. injection Hcc as <-.
  exists ed, ents, docs, labels, keys.
  split_and!; try done.
  - apply NoDup_remove_dups.
  - intros k. apply elem_of_remove_dups.
Qed.

(** Entry 1M17: two polymer entities with chains A, B and B, C give a
    chain count of three. *)
Lemma chain_count_counts_distinct_labels_witness :
  ∃ ed ents docs labels keys,
    entry_doc data_service "1M17" = Return ed ∧
    polymer_entity_ids ed = Return ents ∧
    rmapM (entity_doc data_service "1M17") ents = Return docs ∧
    rmapM auth_asym_ids docs = Return labels ∧
    rmapM py_hash (concat labels) = Return keys ∧
    3 = length (remove_dups keys) ∧
    NoDup (remove_dups keys) ∧
    (∀ k, k ∈ remove_dups keys ↔ k ∈ keys).
Proof.
  exact (chain_count_counts_distinct_labels data_service "1M17" [] _ _
           fetch_one_1M17).
Defined.

Example chain_count_is_not_entity_count :
  ∃ md, enriched data_service "1M17" = Some md ∧
        length (polymer_ids data_service "1M17") = 2 ∧
        md_chain_count md = 3.
Proof. eexists. split; [vm_compute; reflexivity|]. split; reflexivity. Qed.

(** The only polymer entity of 7SYN reports a source organism, whose name
    is the empty string: the comma-join of the names is empty and the
    organism field is "Unknown". *)
Lemma organism_unknown_although_reported :
  ∃ md, (fetch_one data_service "7SYN" []).2 = Return (Some md) ∧
        rmapM (entity_doc data_service "7SYN") (polymer_ids data_service "7SYN")
          = Return [entity_json [""] ["A"]] ∧
        rmapM source_organism [entity_json [""] ["A"]] = Return [Some (KStr "")] ∧
        md_organism md = "Unknown" ∧
        md_organism md ≠ String.concat ", " (merge_sort str_le [""]).
Proof. eexists. split_and!; [vm_compute; reflexivity|done..]. Qed.

(** C10, amended. The organism names of an enriched entry are the names
    of the first source organism of each polymer entity that reports one;
    they are all strings. The organism field is "Unknown" when their sorted,
    duplicate-free list is empty (no entity reports a source organism) or
    holds the empty string alone, and otherwise the comma-join of that
    list. *)
Theorem organism_field_of_enriched_entry
    (env : Env) (eid : string) (t t' : list Event) (md : Row) :
  fetch_one env eid t = (t', Return (Some md)) →
  ∃ ed ents docs names sorted,
    entry_doc env eid = Return ed ∧
    polymer_entity_ids ed = Return ents ∧
    rmapM (entity_doc env eid) ents = Return docs ∧
    rmapM source_organism docs = Return names ∧
    (∀ k, Some k ∈ names → ∃ s, k = KStr s) ∧
    StronglySorted str_le sorted ∧
    NoDup sorted ∧
    (∀ s, s ∈ sorted ↔ Some (KStr s) ∈ names) ∧
    md_organism md
      = (if decide (sorted = [] ∨ sorted = [""]) then "Unknown"
         else String.concat ", " sorted) ∧
    (Forall (λ name, name = None) names → md_organism md = "Unknown").
Proof.
  rewrite fetch_one_unfold.
  destruct (fetch_chain env eid t) as [t1 [md'|e]] eqn:Hc; [|done].
  intros [= -> ->].
  apply fetch_chain_Return in Hc
    as (ed & ents & docs & names & labels & Hed & Hents & Hdocs & Hn & _ & Ho & _).
  unfold organism_field, sorted_join in Ho.
  set (orgs := foldl add_organism [] names) in *.
  destruct (mapM key_str orgs) as [ss|] eqn:Hss; [|done].
  simpl in Ho. injection Ho as Ho.
  apply mapM_key_str in Hss.
  assert (Hnodup : NoDup ss).
  { apply (NoDup_fmap_1 KStr). rewrite <- Hss.
    apply foldl_add_organism_NoDup, NoDup_nil_2. }
  assert (Hin : ∀ k, k ∈ orgs ↔ Some k ∈ names).
  { intros k. unfold orgs. rewrite elem_of_foldl_add_organism, elem_of_nil. tauto. }
  set (sorted := merge_sort str_le ss) in *.
  assert (Hsorted : ∀ s, s ∈ sorted ↔ Some (KStr s) ∈ names).
  { intros s. unfold sorted. rewrite merge_sort_Permutation, <- Hin, Hss.
    rewrite list_elem_of_fmap. split.
    - intros ?. by exists s.
    - by intros (? & [= <-] & ?). }
  assert (Hfield : md_organism md
            = (if decide (sorted = [] ∨ sorted = [""]) then "Unknown"
               else String.concat ", " sorted)).
  { rewrite <- Ho. destruct (String.eqb_spec (String.concat ", " sorted) "") as [He|Hne].
    - apply join_empty_iff in He. by rewrite decide_True.
    - rewrite decide_False; [done|]. by rewrite <- join_empty_iff. }
  exists ed, ents, docs, names, sorted.
  split_and!; try done.
  - intros k Hk. apply Hin in Hk. rewrite Hss in Hk.
    apply list_elem_of_fmap in Hk as (s & -> & _). by exists s.
  - apply (StronglySorted_merge_sort _).
  - unfold sorted. by rewrite merge_sort_Permutation.
  - intros Hnone. rewrite Hfield.
    rewrite decide_True; [done|]. left.
    destruct sorted as [|s l]; [done|]. exfalso.
    assert (Hs : Some (KStr s) ∈ names) by (apply Hsorted; left).
    rewrite Forall_forall in Hnone. by apply Hnone in Hs.
Qed.

Lemma organism_field_of_enriched_entry_witness :
  ∃ ed ents docs names sorted,
    entry_doc data_service "1M17" = Return ed ∧
    polymer_entity_ids ed = Return ents ∧
    rmapM (entity_doc data_service "1M17") ents = Return docs ∧
    rmapM source_organism docs = Return names ∧
    (∀ k, Some k ∈ names → ∃ s, k = KStr s) ∧
    StronglySorted str_le sorted ∧
    NoDup sorted ∧
    (∀ s, s ∈ sorted ↔ Some (KStr s) ∈ names) ∧
    "Homo sapiens, Mus musculus"
      = (if decide (sorted = [] ∨ sorted = [""]) then "Unknown"
         else String.concat ", " sorted) ∧
    (Forall (λ name, name = None) names →
     "Homo sapiens, Mus musculus" = "Unknown").
Proof.
  exact (organism_field_of_enriched_entry data_service "1M17" [] _ _
           fetch_one_1M17).
Defined.

(** ** Filters: theorems *)

Lemma filter_filter {A} (p q : A → bool) (l : list A) :
  List.filter q (List.filter p l) = List.filter (λ x, p x && q x) l.
Proof.
  induction l as [|x l IH]; simpl; [done|].
  destruct (p x); simpl; [|done].
  destruct (q x); by rewrite IH.
Qed.

Lemma filter_block_keeps (f : Filters) (df : DataFrame) :
  filter_block f df = List.filter (keeps f) df.
Proof.
  unfold filter_block, keeps.
  destruct (only_human f), (monomer_only f), (method_filter f);
    cbn [implb]; rewrite ?filter_filter; apply List.filter_ext; intros r;
    cbn [andb]; by rewrite ?andb_true_r, ?andb_assoc.
Qed.

(** C3. Whatever the organism, monomer and method settings, the
    resolution filter is applied: a record with a null resolution is never
    in the output of the filter block, for any ceiling, and every record of
    the output is a record of the input with a resolution at most the
    ceiling. *)
Theorem filter_block_resolution (f : Filters) (df : DataFrame) :
  (∀ r, Resolution r = None → r ∉ filter_block f df) ∧
  (∀ r, r ∈ filter_block f df →
     r ∈ df ∧ ∃ q, Resolution r = Some q ∧ (q <= max_res f)%Q).
Proof.
  assert (H : ∀ r, r ∈ filter_block f df →
            r ∈ df ∧ ∃ q, Resolution r = Some q ∧ (q <= max_res f)%Q).
  { intros r. rewrite filter_block_keeps, list_elem_of_In, List.filter_In.
    intros [Hin Hk]. split; [by apply list_elem_of_In|].
    unfold keeps in Hk. apply andb_true_iff in Hk as [_ Hk].
    destruct (Resolution r) as [q|]; [|done].
    exists q. split; [done|]. by apply Qle_bool_iff. }
  split; [|done].
  intros r Hnull Hin. apply H in Hin as (_ & q & Hq & _). congruence.
Qed.

(** C7. Filtering the output of the filter block again, with the same
    settings, changes nothing. *)
Theorem filter_block_idempotent (f : Filters) (df : DataFrame) :
  filter_block f (filter_block f df) = filter_block f df.
Proof.
  rewrite !filter_block_keeps, filter_filter.
  apply List.filter_ext. intros r. by destruct (keeps f r).
Qed.

(** With every optional filter off and the ceiling at 5.0, the record
    without a resolution is still dropped. *)
Example filter_block_drops_null :
  PDB_ID <$> filter_block loosest sample_frame
  = ["1AAA"; "3CCC"; "4DDD"; "5EEE"; "6FFF"].
Proof. reflexivity. Qed.

Example filter_block_all_filters :
  PDB_ID <$> filter_block {| only_human := true; monomer_only := true;
                             max_res := 25 # 10; method_filter := XRAY |}
                          sample_frame
  = ["1AAA"; "3CCC"].
Proof. reflexivity. Qed.

(** ** Ranking and export: theorems *)

#[global] Instance by_resolution_trans : Transitive by_resolution.
Proof.
  intros r1 r2 r3. unfold by_resolution.
  destruct (Resolution r1), (Resolution r2), (Resolution r3); simpl; try done.
  apply Qle_trans.
Qed.

#[global] Instance by_resolution_total : Total by_resolution.
Proof.
  intros r1 r2. unfold by_resolution.
  destruct (Resolution r1) as [x|], (Resolution r2) as [y|]; simpl; auto.
  destruct (Qlt_le_dec x y); auto using Qlt_le_weak.
Qed.

Lemma StronglySorted_take {A} (R : relation A) (n : nat) (l : list A) :
  StronglySorted R l → StronglySorted R (take n l).
Proof.
  intros H. rewrite <- (take_drop n l) in H.
  by apply StronglySorted_app_1_l in H.
Qed.

Lemma write_pdbs_names env ids : ∀ zipf t t' z,
  write_pdbs env ids zipf t = (t', Return z) →
  z.*1 = zipf.*1 ++ (pdb_name <$> ids) ∧
  t' = t ++ ((λ i, Http (DownloadGet i)) <$> ids).
Proof.
  induction ids as [|i ids IH]; intros zipf t t' z; simpl.
  - intros [= <- <-]. by rewrite !app_nil_r.
  - unfold bind, request. destruct (env (DownloadGet i)) as [r|]; [|done].
    intros H. apply IH in H as [-> ->].
    rewrite fmap_app, <- !app_assoc. done.
Qed.

(** C8. Over no identifier at all the archive is built without a request
    and without an error, and it has zero entries; in general a finished
    archive has one entry per identifier, named after it, in order. *)
Theorem build_zip_empty (env : Env) (t : list Event) :
  (∃ z, build_zip env [] t = (t, Return z) ∧ length z = 0) ∧
  (∀ ids t' z, build_zip env ids t = (t', Return z) →
     z.*1 = pdb_name <$> ids).
Proof.
  split; [by exists []|].
  intros ids t' z H. by apply write_pdbs_names in H as [-> _].
Qed.

Example build_zip_two :
  build_zip file_service ["1AAA"; "3CCC"] []
  = ([Http (DownloadGet "1AAA"); Http (DownloadGet "3CCC")],
     Return [("1AAA.pdb", "HEADER    1AAA"); ("3CCC.pdb", "HEADER    3CCC")]).
Proof. reflexivity. Qed.

(** A file that cannot be fetched aborts the build. *)
Example build_zip_failure :
  build_zip data_service ["1AAA"] []
  = ([Http (DownloadGet "1AAA")], Raise ConnectionError).
Proof. reflexivity. Qed.

Section Ranking.
Variable env : Env.
Variable sort_values : DataFrame → DataFrame.
Hypothesis sort_values_Permutation : ∀ df, sort_values df ≡ₚ df.
Hypothesis sort_values_Sorted : ∀ df, Sorted by_resolution (sort_values df).

(** C4. [top3] returns only records of the frame whose method contains
    "X-RAY" in any letter case, at most three of them, in non-decreasing
    order of resolution (a null resolution, which the filter block has
    removed from the frames the page ranks, sorts last). They are the first
    three of the X-ray records sorted by resolution: three of them, or all
    the X-ray records when these are fewer, and every X-ray record left out
    has a resolution no better than any record returned. On X-ray records
    with the resolutions 2.1, 1.0, 1.8 and 0.9 the result is 0.9, 1.0,
    1.8. *)
Theorem top3_xray_sorted_at_most_3 (df : DataFrame) :
  Forall (λ r, r ∈ df ∧ contains_nocase "X-RAY" (Method r) = true)
         (top3 sort_values df) ∧
  (length (top3 sort_values df) ≤ 3)%nat ∧
  StronglySorted by_resolution (top3 sort_values df) ∧
  length (top3 sort_values df) = min 3 (length (List.filter is_xray df)) ∧
  (∃ rest,
     top3 sort_values df ++ rest ≡ₚ List.filter is_xray df ∧
     ∀ r s, r ∈ top3 sort_values df → s ∈ rest → by_resolution r s) ∧
  Resolution <$> top3 sort_values xray_frame
  = [Some (9 # 10); Some (10 # 10); Some (18 # 10)].
Proof.
  assert (Hsorted : ∀ l, StronglySorted by_resolution (sort_values l)).
  { intros l. apply Sorted_StronglySorted; [apply _|]. apply sort_values_Sorted. }
  unfold top3. split_and!.
  - apply Forall_forall. intros r Hr.
    apply subseteq_take in Hr.
    rewrite sort_values_Permutation in Hr.
    by apply list_elem_of_In, List.filter_In in Hr as [?%list_elem_of_In ?].
  - rewrite length_take. lia.
  - apply StronglySorted_take, Hsorted.
  - by rewrite length_take, sort_values_Permutation.
  - exists (drop 3 (sort_values (List.filter is_xray df))). split.
    + by rewrite take_drop.
    + intros r s Hr Hs.
      eapply (StronglySorted_app_1_elem_of by_resolution); [|done..].
      rewrite take_drop. apply Hsorted.
  - change (List.filter is_xray xray_frame) with xray_frame.
    assert (Heq : sort_values xray_frame = merge_sort by_resolution xray_frame).
    { apply (StronglySorted_unique_strong by_resolution).
      - intros x1 x2 H1 H2.
        rewrite sort_values_Permutation in H1.
        rewrite merge_sort_Permutation in H2.
        apply list_elem_of_In in H1, H2. simpl in H1, H2.
        repeat match goal with
               | H : _ ∨ _ |- _ => destruct H as [<-|H]
               | H : False |- _ => destruct H
               end;
          unfold by_resolution; simpl; unfold Qle; simpl; intros;
          try reflexivity; lia.
      - apply Hsorted.
      - apply Sorted_StronglySorted; [apply _|]. apply Sorted_merge_sort, _.
      - by rewrite sort_values_Permutation, merge_sort_Permutation. }
    rewrite Heq. reflexivity.
Qed.

Lemma top3_nil_iff (df : DataFrame) :
  top3 sort_values df = [] ↔ Forall (λ r, is_xray r = false) df.
Proof.
  unfold top3. split.
  - intros H. apply Forall_forall. intros r Hr.
    destruct (is_xray r) eqn:Hx; [exfalso|done].
    assert (Hin : r ∈ sort_values (List.filter is_xray df)).
    { rewrite sort_values_Permutation.
      apply list_elem_of_In, List.filter_In. by rewrite <- list_elem_of_In. }
    destruct (sort_values (List.filter is_xray df)); [|done].
    by apply elem_of_nil in Hin.
  - intros H.
    assert (Hnil : List.filter is_xray df = []).
    { induction H as [|r l Hr _ IH]; simpl; [done|]. by rewrite Hr. }
    rewrite Hnil.
    pose proof (sort_values_Permutation []) as Hp.
    apply Permutation_nil_r in Hp. by rewrite Hp.
Qed.

Lemma tab1_without_top3 (df : DataFrame) (t : list Event) :
  top3 sort_values df = [] →
  ∃ evs, tab1 env sort_values df t = (t ++ evs, Return tt) ∧
         Forall (λ ev, is_export ev = false) evs.
Proof.
  intros H. unfold tab1. rewrite H.
  eexists. split.
  - unfold bind, show. simpl. by rewrite <- !app_assoc.
  - by repeat constructor.
Qed.

(** C9. Both archives are built inside the branch taken when [top3] is
    not empty. For a frame without a record whose method contains
    "X-RAY" in any letter case, [top3] is empty and [tab1] shows the table
    of the frame and the warning only: it requests no structure file and
    shows no download button, for the frame or for the top three.
    Conversely, a run of [tab1] that adds such an event had a non-empty
    [top3], hence a record whose method contains "X-RAY". *)
Theorem archives_only_with_xray (df : DataFrame) (t : list Event) :
  (Forall (λ r, contains_nocase "X-RAY" (Method r) = false) df →
   top3 sort_values df = [] ∧
   ∃ evs, tab1 env sort_values df t = (t ++ evs, Return tt) ∧
          Forall (λ ev, is_export ev = false) evs) ∧
  (∀ t' r ev,
     tab1 env sort_values df t = (t', r) →
     Forall (λ ev, is_export ev = false) t →
     ev ∈ t' → is_export ev = true →
     top3 sort_values df ≠ [] ∧
     Exists (λ r, contains_nocase "X-RAY" (Method r) = true) df).
Proof.
  split.
  - intros H. apply top3_nil_iff in H. split; [done|].
    by apply tab1_without_top3.
  - intros t' r ev Htab Ht Hev Hex.
    assert (Hne : top3 sort_values df ≠ []).
    { intros Hnil.
      destruct (tab1_without_top3 df t Hnil) as (evs & Hrun & Hevs).
      rewrite Hrun in Htab. injection Htab as <- _.
      apply elem_of_app in Hev as [Hev|Hev].
      - rewrite Forall_forall in Ht. apply Ht in Hev. congruence.
      - rewrite Forall_forall in Hevs. apply Hevs in Hev. congruence. }
    split; [done|].
    destruct (decide (Exists (λ r, contains_nocase "X-RAY" (Method r) = true) df))
      as [|Hno]; [done|].
    exfalso. apply Hne, top3_nil_iff.
    apply not_Exists_Forall in Hno; [|apply _].
    eapply Forall_impl; [exact Hno|]. intros x Hx. simpl in Hx.
    unfold is_xray. by destruct (contains_nocase "X-RAY" (Method x)).
Qed.
End Ranking.

Lemma sort_by_resolution_Permutation (df : DataFrame) :
  sort_by_resolution df ≡ₚ df.
Proof. apply merge_sort_Permutation. Qed.

Lemma sort_by_resolution_Sorted (df : DataFrame) :
  Sorted by_resolution (sort_by_resolution df).
Proof. apply Sorted_merge_sort, _. Qed.

Lemma top3_xray_sorted_at_most_3_witness :
  Forall (λ r, r ∈ sample_frame ∧ contains_nocase "X-RAY" (Method r) = true)
         (top3 sort_by_resolution sample_frame) ∧
  (length (top3 sort_by_resolution sample_frame) ≤ 3)%nat ∧
  StronglySorted by_resolution (top3 sort_by_resolution sample_frame) ∧
  length (top3 sort_by_resolution sample_frame)
  = min 3 (length (List.filter is_xray sample_frame)) ∧
  (∃ rest,
     top3 sort_by_resolution sample_frame ++ rest
       ≡ₚ List.filter is_xray sample_frame ∧
     ∀ r s, r ∈ top3 sort_by_resolution sample_frame → s ∈ rest →
            by_resolution r s) ∧
  Resolution <$> top3 sort_by_resolution xray_frame
  = [Some (9 # 10); Some (10 # 10); Some (18 # 10)].
Proof.
  apply (top3_xray_sorted_at_most_3 sort_by_resolution
           sort_by_resolution_Permutation sort_by_resolution_Sorted sample_frame).
Defined.

Example top3_of_four :
  Resolution <$> top3 sort_by_resolution xray_frame
  = [Some (9 # 10); Some (10 # 10); Some (18 # 10)].
Proof. reflexivity. Qed.

Example top3_mixed_case :
  PDB_ID <$> top3 sort_by_resolution (filter_block loosest sample_frame)
  = ["6FFF"; "3CCC"; "5EEE"].
Proof. reflexivity. Qed.

Lemma archives_only_with_xray_witness :
  (Forall (λ r, contains_nocase "X-RAY" (Method r) = false) nmr_frame →
   top3 sort_by_resolution nmr_frame = [] ∧
   ∃ evs, tab1 file_service sort_by_resolution nmr_frame [] = ([] ++ evs, Return tt) ∧
          Forall (λ ev, is_export ev = false) evs) ∧
  (∀ t' r ev,
     tab1 file_service sort_by_resolution nmr_frame [] = (t', r) →
     Forall (λ ev, is_export ev = false) [] →
     ev ∈ t' → is_export ev = true →
     top3 sort_by_resolution nmr_frame ≠ [] ∧
     Exists (λ r, contains_nocase "X-RAY" (Method r) = true) nmr_frame).
Proof.
  apply (archives_only_with_xray file_service sort_by_resolution
           sort_by_resolution_Permutation nmr_frame []).
Defined.

Example tab1_without_xray :
  tab1 file_service sort_by_resolution nmr_frame []
  = ([Shown (Subheader "📄 Matching Structures");
      Shown (Dataframe nmr_frame);
      Shown (Warning "⚡ No X-ray structures available in filtered results.")],
     Return tt).
Proof. reflexivity. Qed.

(** With X-ray structures both archives are built: one file per record of
    the frame, then one per record of the top three. *)
Example tab1_with_xray :
  omap (λ ev, match ev with
              | Http (DownloadGet pdb_id) => Some pdb_id
              | Shown (DownloadButton _ data file_name _) =>
                  Some (file_name ++ ": " ++ String.concat " " data.*1)%string
              | _ => None
              end)
       (tab1 file_service sort_by_resolution xray_frame []).1
  = ["1AAA"; "3CCC"; "5EEE"; "6FFF";
     "filtered_structures.zip: 1AAA.pdb 3CCC.pdb 5EEE.pdb 6FFF.pdb";
     "6FFF"; "3CCC"; "5EEE";
     "top3_structures.zip: 6FFF.pdb 3CCC.pdb 5EEE.pdb"].
Proof. reflexivity. Qed.

(** * Further properties of the page *)

(** ** Search *)

Lemma rmapM_Forall2 {A B} (f : A → result B) (l : list A) (ys : list B) :
  rmapM f l = Return ys ↔ Forall2 (λ x y, f x = Return y) l ys.
Proof.
  split.
  - revert ys. induction l as [|x l IH]; intros ys; simpl.
    + intros [= <-]. constructor.
    + destruct (f x) as [y|e] eqn:Hx; simpl; [|done].
      destruct (rmapM f l) as [ys'|e]; simpl; [|done].
      intros [= <-]. constructor; [done|]. by apply IH.
  - induction 1 as [|x y l ys' Hx _ IH]; simpl; [done|].
    by rewrite Hx, IH.
Qed.

Lemma search_entries_log (env : Env) (query : string) (t : list Event) :
  ((search_entries env query t).1
   = t ++ [Http (SearchPost (precise_payload query))] ∧
   (precise_query env query t).2 ≠ Return []) ∨
  ((search_entries env query t).1
   = t ++ [Http (SearchPost (precise_payload query));
           Http (SearchPost (fallback_payload query))] ∧
   (precise_query env query t).2 = Return []).
Proof.
  unfold search_entries, bind.
  rewrite precise_query_unfold.
  destruct (rbind (env (SearchPost (precise_payload query))) identifiers)
    as [[|id ids]|e]; simpl.
  - right. rewrite fallback_full_text_unfold. simpl.
    by rewrite <- app_assoc.
  - by left.
  - by left.
Qed.

(** X1. A call of the decorated [search_entries] whose query is in the
    cache sends nothing and returns the stored list. Otherwise the body
    runs: the precise query is sent, first; the full-text query is sent
    exactly when the precise query returned the empty list, and nothing
    else is requested. A list that was returned is stored, and the same
    query then sends no request again, whatever the services would answer.
    The query is taken in ASCII, where [upper] is [str.upper] and the
    request logged is the request sent. *)
Theorem search_entries_requests
    (env : Env) (cache : Cache (list Json)) (query : string) (t : list Event) :
  is_ascii query = true →
  let p := Http (SearchPost (precise_payload query)) in
  let f := Http (SearchPost (fallback_payload query)) in
  match assoc query cache with
  | Some ids =>
      cached_search_entries env cache query t = (t, Return (ids, cache))
  | None =>
      (((cached_search_entries env cache query t).1 = t ++ [p] ∧
        (precise_query env query t).2 ≠ Return []) ∨
       ((cached_search_entries env cache query t).1 = t ++ [p; f] ∧
        (precise_query env query t).2 = Return [])) ∧
      (∀ t' ids cache',
         cached_search_entries env cache query t = (t', Return (ids, cache')) →
         search_entries env query t = (t', Return ids) ∧
         ∀ env' t'',
           cached_search_entries env' cache' query t''
           = (t'', Return (ids, cache')))
  end.
Proof.
  intros _ p f. unfold cached_search_entries, cache_data.
  destruct (assoc query cache) as [ids|] eqn:Hc; [done|].
  split.
  - pose proof (search_entries_log env query t) as Hlog.
    fold p f in Hlog. unfold bind, ret.
    by destruct (search_entries env query t) as [t1 [v|e]].
  - intros t' ids cache'. unfold bind at 1. unfold ret.
    destruct (search_entries env query t) as [t1 [v|e]]; [|done].
    intros [= -> -> <-]. split; [done|].
    intros env' t''. cbn [assoc]. by rewrite String.eqb_refl.
Qed.

Lemma search_entries_requests_witness :
  (((cached_search_entries (search_service (Return egfr_hits) (Return egfr_text_hits))
       [] "egfr" []).1
    = [] ++ [Http (SearchPost (precise_payload "egfr"))] ∧
    (precise_query (search_service (Return egfr_hits) (Return egfr_text_hits))
       "egfr" []).2 ≠ Return []) ∨
   ((cached_search_entries (search_service (Return egfr_hits) (Return egfr_text_hits))
       [] "egfr" []).1
    = [] ++ [Http (SearchPost (precise_payload "egfr"));
             Http (SearchPost (fallback_payload "egfr"))] ∧
    (precise_query (search_service (Return egfr_hits) (Return egfr_text_hits))
       "egfr" []).2 = Return [])) ∧
  (∀ t' ids cache',
     cached_search_entries (search_service (Return egfr_hits) (Return egfr_text_hits))
       [] "egfr" [] = (t', Return (ids, cache')) →
     search_entries (search_service (Return egfr_hits) (Return egfr_text_hits))
       "egfr" [] = (t', Return ids) ∧
     ∀ env' t'',
       cached_search_entries env' cache' "egfr" t'' = (t'', Return (ids, cache'))).
Proof.
  apply (search_entries_requests
           (search_service (Return egfr_hits) (Return egfr_text_hits))
           [] "egfr" []).
  reflexivity.
Defined.

(** A second call with the same query is served from the store. *)
Example cached_search_entries_twice :
  ∃ cache,
    cached_search_entries (search_service (Return egfr_hits) (Return egfr_text_hits))
      [] "egfr" []
    = ([Http (SearchPost (precise_payload "egfr"))],
       Return ([JStr "1M17"; JStr "2ITY"], cache)) ∧
    cached_search_entries (λ _, Raise ConnectionError) cache "egfr"
      [Http (SearchPost (precise_payload "egfr"))]
    = ([Http (SearchPost (precise_payload "egfr"))],
       Return ([JStr "1M17"; JStr "2ITY"], cache)).
Proof. eexists. split; reflexivity. Qed.

(** X2. A response with an error status gives the empty list without its
    body being read, whatever the body is. A response with a success status
    whose result set is a list of hits, each an object with an
    "identifier", gives the identifiers of the hits, one per hit and in
    their order, the other keys of a hit playing no part; and a list that
    is returned for a success status is always of that form. *)
Theorem identifiers_one_per_hit (r : Response) :
  (ok r = false → identifiers r = Return []) ∧
  (∀ kv hits ids,
     ok r = true →
     json_body r = Some (JObj kv) →
     assoc "result_set" kv = Some (JArr hits) →
     Forall2 (λ hit id, ∃ fields,
                hit = JObj fields ∧ assoc "identifier" fields = Some id)
             hits ids →
     identifiers r = Return ids ∧ length ids = length hits) ∧
  (∀ ids,
     ok r = true →
     identifiers r = Return ids →
     ∃ doc hits,
       json r = Return doc ∧
       rbind (py_get doc "result_set" (JArr [])) py_iter = Return hits ∧
       Forall2 (λ hit id, py_getitem hit "identifier" = Return id) hits ids).
Proof.
  split_and!.
  - apply identifiers_not_ok.
  - intros kv hits ids Hok Hbody Hrs Hhits. split.
    + unfold identifiers, json. rewrite Hok, Hbody. simpl. rewrite Hrs. simpl.
      apply rmapM_Forall2. eapply Forall2_impl; [exact Hhits|].
      intros hit id (fields & -> & Hid). simpl. by rewrite Hid.
    + symmetry. by eapply Forall2_length.
  - intros ids Hok H. unfold identifiers in H. rewrite Hok in H.
    destruct (json r) as [doc|]; [|done]. simpl in H.
    destruct (py_get doc "result_set" (JArr [])) as [rs|] eqn:Hrs; [|done].
    simpl in H.
    destruct (py_iter rs) as [hits|] eqn:Hhits; [|done]. simpl in H.
    exists doc, hits. rewrite Hrs. split_and!; [done..|].
    by apply rmapM_Forall2.
Qed.

Example identifiers_error_status_unread :
  identifiers {| ok := false; json_body := None; text := "Bad Gateway" |}
  = Return []
  ∧ identifiers egfr_hits = Return [JStr "1M17"; JStr "2ITY"].
Proof. split; reflexivity. Qed.

(** X3. A successful answer to the precise query whose document has no
    "result_set" key counts as no hit: the full-text query decides. *)
Theorem search_entries_without_result_set
    (env : Env) (query : string) (t : list Event) (r : Response)
    (kv : list (string * Json)) :
  env (SearchPost (precise_payload query)) = Return r →
  json_body r = Some (JObj kv) →
  assoc "result_set" kv = None →
  search_entries env query t
  = fallback_full_text env query
      (t ++ [Http (SearchPost (precise_payload query))]).
Proof.
  intros Hr Hbody Hkey.
  assert (Hp : precise_query env query t
               = (t ++ [Http (SearchPost (precise_payload query))], Return [])).
  { rewrite precise_query_unfold, Hr. simpl.
    unfold identifiers, json. rewrite Hbody.
    destruct (ok r); [|done]. simpl. by rewrite Hkey. }
  unfold search_entries. by rewrite (bind_Return _ _ _ _ _ Hp).
Qed.

Lemma search_entries_without_result_set_witness :
  search_entries
    (search_service (Return (http_ok (JObj [("total_count", JNum 0)])))
                    (Return egfr_text_hits)) "egfr" []
  = fallback_full_text
      (search_service (Return (http_ok (JObj [("total_count", JNum 0)])))
                      (Return egfr_text_hits)) "egfr"
      ([] ++ [Http (SearchPost (precise_payload "egfr"))]).
Proof.
  apply (search_entries_without_result_set _ "egfr" []
           (http_ok (JObj [("total_count", JNum 0)]))
           [("total_count", JNum 0)]); reflexivity.
Defined.

(** X4. A successful answer to the precise query that cannot be read
    raises out of [search_entries] and the full-text query is not sent: a
    body that is not JSON raises JSONDecodeError, a first hit without the
    key "identifier" raises KeyError. *)
Theorem search_entries_unreadable_answer
    (env : Env) (query : string) (t : list Event) (r : Response) :
  env (SearchPost (precise_payload query)) = Return r →
  ok r = true →
  (json_body r = None →
   search_entries env query t
   = (t ++ [Http (SearchPost (precise_payload query))], Raise JSONDecodeError)) ∧
  (∀ kv hit hits,
     json_body r = Some (JObj kv) →
     assoc "result_set" kv = Some (JArr (JObj hit :: hits)) →
     assoc "identifier" hit = None →
     search_entries env query t
     = (t ++ [Http (SearchPost (precise_payload query))], Raise KeyError)).
Proof.
  intros Hr Hok. split.
  - intros Hbody. unfold search_entries. apply bind_Raise.
    rewrite precise_query_unfold, Hr. simpl.
    unfold identifiers, json. by rewrite Hok, Hbody.
  - intros kv hit hits Hbody Hrs Hid. unfold search_entries. apply bind_Raise.
    rewrite precise_query_unfold, Hr. simpl.
    unfold identifiers, json. rewrite Hok, Hbody. simpl.
    rewrite Hrs. simpl. by rewrite Hid.
Qed.

Lemma search_entries_unreadable_answer_witness :
  search_entries
    (search_service (Return {| ok := true; json_body := None; text := "" |})
                    (Return egfr_text_hits)) "egfr" []
  = ([] ++ [Http (SearchPost (precise_payload "egfr"))], Raise JSONDecodeError).
Proof.
  apply (search_entries_unreadable_answer
           (search_service (Return {| ok := true; json_body := None; text := "" |})
                           (Return egfr_text_hits))
           "egfr" [] {| ok := true; json_body := None; text := "" |});
    reflexivity.
Defined.

(** ** Metadata fetcher *)

Lemma polymer_loop_log_Return env eid ents : ∀ acc t t' acc',
  polymer_loop env eid acc ents t = (t', Return acc') →
  t' = t ++ (polymer_request eid <$> ents).
Proof.
  induction ents as [|ent ents IH]; intros acc t t' acc'; simpl.
  - intros [= <- <-]. by rewrite app_nil_r.
  - unfold bind. rewrite polymer_step_unfold.
    destruct (rbind (entity_doc env eid ent) _) as [acc1|e]; [|done].
    intros H. apply IH in H as ->. by rewrite <- app_assoc.
Qed.

Lemma fetch_all_metadata_rows env as_completed ids max_threads :
  (∀ l, as_completed l ≡ₚ l) →
  0 < max_threads →
  ∃ rows, fetch_all_metadata env as_completed ids max_threads = Return rows ∧
          rows ≡ₚ omap (enriched env) ids.
Proof.
  intros Hperm Hn. unfold fetch_all_metadata.
  destruct max_threads; [lia|]. simpl Nat.eqb. cbv iota.
  assert (Hfut : future env <$> ids = Return <$> (enriched env <$> ids)).
  { rewrite <- list_fmap_compose. apply list_fmap_ext.
    intros ? x _. apply future_enriched. }
  rewrite Hfut.
  pose proof (Hperm (Return <$> (enriched env <$> ids))) as Hp.
  apply (Permutation_map_inv (@Return (option Row))) in Hp
    as (mds & -> & Hmds).
  change (map Return mds) with (Return <$> mds).
  rewrite rmapM_Return. simpl.
  eexists; split; [done|].
  by rewrite <- Hmds, omap_fmap_id.
Qed.

Lemma omap_length_le {A B} (f : A → option B) (l : list A) :
  (length (omap f l) ≤ length l)%nat.
Proof.
  induction l as [|x l IH]; [done|].
  change (omap f (x :: l))
    with (match f x with Some y => y :: omap f l | None => omap f l end).
  destruct (f x); simpl; lia.
Qed.

Lemma enriched_pdb_id env eid md : enriched env eid = Some md → md_pdb_id md = eid.
Proof.
  unfold enriched.
  destruct (fetch_chain env eid []) as [t [md'|e]] eqn:Hc; simpl; [|done].
  intros [= ->].
  by apply fetch_chain_Return in Hc as (?&?&?&?&?&_&_&_&_&_&_&_&?).
Qed.

(** X5. Whatever the services answer, also when every request fails, the
    fetch of a batch with at least one worker raises nothing: it returns at
    most one record per identifier, and every record carries the
    identifier it was fetched for. *)
Theorem fetch_all_metadata_never_raises
    (env : Env)
    (as_completed : list (result (option Row)) → list (result (option Row)))
    (ids : list string) (max_threads : nat) :
  (∀ l, as_completed l ≡ₚ l) →
  0 < max_threads →
  ∃ rows,
    fetch_all_metadata env as_completed ids max_threads = Return rows ∧
    (length rows ≤ length ids)%nat ∧
    Forall (λ md, md_pdb_id md ∈ ids ∧ enriched env (md_pdb_id md) = Some md) rows.
Proof.
  intros Hperm Hn.
  destruct (fetch_all_metadata_rows env as_completed ids max_threads Hperm Hn)
    as (rows & Hrows & Hp).
  exists rows. split_and!; [done| |].
  - rewrite Hp. apply omap_length_le.
  - apply Forall_forall. intros md Hmd. rewrite Hp in Hmd.
    apply list_elem_of_omap in Hmd as (eid & Hin & He).
    by rewrite (enriched_pdb_id _ _ _ He).
Qed.

Lemma fetch_all_metadata_never_raises_witness :
  ∃ rows,
    fetch_all_metadata (λ _, Raise ConnectionError) reverse ["1M17"; "2ITY"] 1
      = Return rows ∧
    (length rows ≤ length ["1M17"; "2ITY"])%nat ∧
    Forall (λ md, md_pdb_id md ∈ ["1M17"; "2ITY"] ∧
                  enriched (λ _, Raise ConnectionError) (md_pdb_id md) = Some md)
           rows.
Proof.
  apply (fetch_all_metadata_never_raises (λ _, Raise ConnectionError) reverse
           ["1M17"; "2ITY"] 1).
  - intros l. apply reverse_Permutation.
  - lia.
Defined.

(** X6. The number of workers and the order in which the chains complete
    change the order of the records only: two runs over the same
    identifiers give the same records up to a permutation. *)
Theorem fetch_all_metadata_schedule_independent
    (env : Env)
    (as_completed1 as_completed2 :
       list (result (option Row)) → list (result (option Row)))
    (ids : list string) (n1 n2 : nat) :
  (∀ l, as_completed1 l ≡ₚ l) →
  (∀ l, as_completed2 l ≡ₚ l) →
  0 < n1 → 0 < n2 →
  ∃ rows1 rows2,
    fetch_all_metadata env as_completed1 ids n1 = Return rows1 ∧
    fetch_all_metadata env as_completed2 ids n2 = Return rows2 ∧
    rows1 ≡ₚ rows2.
Proof.
  intros H1 H2 Hn1 Hn2.
  destruct (fetch_all_metadata_rows env as_completed1 ids n1 H1 Hn1)
    as (rows1 & Hr1 & Hp1).
  destruct (fetch_all_metadata_rows env as_completed2 ids n2 H2 Hn2)
    as (rows2 & Hr2 & Hp2).
  exists rows1, rows2. split_and!; [done..|]. by rewrite Hp1, Hp2.
Qed.

Lemma fetch_all_metadata_schedule_independent_witness :
  ∃ rows1 rows2,
    fetch_all_metadata data_service (λ l, l) ["1M17"; "2ITY"; "5DFT"] 1
      = Return rows1 ∧
    fetch_all_metadata data_service reverse ["1M17"; "2ITY"; "5DFT"] 20
      = Return rows2 ∧
    rows1 ≡ₚ rows2.
Proof.
  apply (fetch_all_metadata_schedule_independent data_service (λ l, l) reverse
           ["1M17"; "2ITY"; "5DFT"] 1 20).
  - done.
  - intros l. apply reverse_Permutation.
  - lia.
  - lia.
Defined.

(** X7. An entry document that is an object without the keys "exptl",
    "rcsb_entry_info", "struct" and "rcsb_entry_container_identifiers"
    raises nothing: after the one entry request the record holds the
    defaults, method "Unknown", null resolution, title "No Title",
    organism "Unknown" and chain count 0. *)
Theorem fetch_one_missing_keys
    (env : Env) (eid : string) (t : list Event) (r : Response)
    (kv : list (string * Json)) :
  env (EntryGet eid) = Return r →
  json_body r = Some (JObj kv) →
  assoc "exptl" kv = None →
  assoc "rcsb_entry_info" kv = None →
  assoc "struct" kv = None →
  assoc "rcsb_entry_container_identifiers" kv = None →
  fetch_one env eid t
  = (t ++ [Http (EntryGet eid)],
     Return (Some {| md_pdb_id := eid; md_title := JStr "No Title";
                     md_method := JStr "Unknown"; md_resolution := JNull;
                     md_organism := "Unknown"; md_chain_count := 0 |})).
Proof.
  intros Hr Hbody H1 H2 H3 H4.
  rewrite fetch_one_unfold. unfold fetch_chain.
  unfold bind at 1. unfold request at 1. rewrite Hr.
  rewrite bind_lift. unfold json. rewrite Hbody.
  rewrite bind_lift. simpl. rewrite H1. simpl.
  rewrite H2. simpl. rewrite H3. simpl.
  unfold polymer_entity_ids. simpl. rewrite H4. reflexivity.
Qed.

Lemma fetch_one_missing_keys_witness :
  fetch_one data_service "0000" []
  = ([] ++ [Http (EntryGet "0000")],
     Return (Some {| md_pdb_id := "0000"; md_title := JStr "No Title";
                     md_method := JStr "Unknown"; md_resolution := JNull;
                     md_organism := "Unknown"; md_chain_count := 0 |})).
Proof.
  apply (fetch_one_missing_keys data_service "0000" [] not_found
           [("status", JNum 404)]); reflexivity.
Defined.

(** X8. A chain that ends with a record has sent the entry request and
    then one request per polymer entity of the entry, in the order of the
    entry document, and nothing else; the record carries the identifier
    and its organism field is never the empty string. *)
Theorem fetch_one_success_requests
    (env : Env) (eid : string) (t t' : list Event) (md : Row) :
  fetch_one env eid t = (t', Return (Some md)) →
  t' = t ++ Http (EntryGet eid) :: (polymer_request eid <$> polymer_ids env eid) ∧
  md_pdb_id md = eid ∧
  md_organism md ≠ "".
Proof.
  rewrite fetch_one_unfold.
  destruct (fetch_chain env eid t) as [t1 [md'|e]] eqn:Hc; [|done].
  intros [= -> ->].
  pose proof Hc as Hret.
  apply fetch_chain_Return in Hret
    as (ed & ents & docs & names & labels & Hed & Hents & _ & _ & _ & Ho & _ & Hid).
  split_and!; [|done|].
  - unfold polymer_ids. rewrite Hed. simpl. rewrite Hents.
    revert Hc. unfold fetch_chain, entry_doc in *.
    unfold bind at 1. unfold request at 1.
    destruct (env (EntryGet eid)) as [e|]; [|done]. simpl in Hed.
    rewrite bind_lift, Hed.
    do 8 (rewrite bind_lift;
          match goal with
          | |- match ?r with Return _ => _ | Raise _ => _ end = _ → _ =>
              destruct r; [|done]
          end).
    rewrite bind_lift, Hents. unfold bind at 1.
    destruct (polymer_loop _ _ _ _ _) as [t2 [acc|]] eqn:Hloop; [|done].
    apply polymer_loop_log_Return in Hloop as ->.
    intros H.
    repeat (rewrite bind_lift in H;
            match type of H with
            | match ?r with Return _ => _ | Raise _ => _ end = _ =>
                destruct r; [|done]
            end).
    injection H as <- _. by rewrite <- app_assoc.
  - unfold organism_field in Ho.
    destruct (sorted_join _) as [joined|]; [|done]. simpl in Ho.
    injection Ho as <-.
    destruct (String.eqb_spec joined ""); done.
Qed.

Lemma fetch_one_success_requests_witness :
  [Http (EntryGet "1M17"); Http (PolymerEntityGet "1M17" (JStr "1"));
   Http (PolymerEntityGet "1M17" (JStr "2"))]
  = [] ++ Http (EntryGet "1M17")
          :: (polymer_request "1M17" <$> polymer_ids data_service "1M17") ∧
  "1M17" = "1M17" ∧
  "Homo sapiens, Mus musculus" ≠ "".
Proof.
  exact (fetch_one_success_requests data_service "1M17" [] _ _ fetch_one_1M17).
Defined.

Lemma bind_request_json {A} env r (k : Json → M A) t :
  bind (request env r) (λ e, bind (lift (json e)) k) t
  = match rbind (env r) json with
    | Return doc => k doc (t ++ [Http r])
    | Raise e => (t ++ [Http r], Raise e)
    end.
Proof.
  unfold bind at 1. unfold request. destruct (env r) as [e|]; simpl; [|done].
  by rewrite bind_lift.
Qed.

Lemma bind_result_ext {A B} (m m' : M A) (k : A → M B) t t' :
  (m t).2 = (m' t').2 →
  (∀ a s s', (k a s).2 = (k a s').2) →
  (bind m k t).2 = (bind m' k t').2.
Proof.
  intros Hm Hk. unfold bind.
  destruct (m t) as [s [a|e]], (m' t') as [s' [a'|e']]; simpl in *;
    simplify_eq; [apply Hk|done].
Qed.

Lemma polymer_loop_ext env env' eid ents :
  (∀ ent, entity_doc env eid ent = entity_doc env' eid ent) →
  ∀ acc t t',
    (polymer_loop env eid acc ents t).2 = (polymer_loop env' eid acc ents t').2.
Proof.
  intros H. induction ents as [|ent ents IH]; intros acc t t'; simpl; [done|].
  unfold bind. rewrite !polymer_step_unfold, H.
  destruct (rbind (entity_doc env' eid ent) _) as [acc'|e]; [apply IH|done].
Qed.

(** X9. The status of a response is never looked at by the metadata
    chain: two services whose answers carry the same JSON documents, or
    fail to, give the same record for every identifier. An error page with
    a JSON body is read like any entry document. *)
Theorem fetch_ignores_status (env env' : Env) (eid : string) :
  (∀ req, rbind (env req) json = rbind (env' req) json) →
  enriched env eid = enriched env' eid ∧ future env eid = future env' eid.
Proof.
  intros H.
  assert (Hc : (fetch_chain env eid []).2 = (fetch_chain env' eid []).2).
  { unfold fetch_chain. rewrite !bind_request_json, H.
    destruct (rbind (env' (EntryGet eid)) json) as [ed|]; [|done].
    repeat (rewrite !bind_lift;
            match goal with
            | |- (match ?r with Return _ => _ | Raise _ => _ end).2 = _ =>
                destruct r; [|done]
            end).
    apply bind_result_ext.
    - apply polymer_loop_ext. intros ent. apply H.
    - intros acc s s'.
      repeat (rewrite !bind_lift;
              match goal with
              | |- (match ?r with Return _ => _ | Raise _ => _ end).2 = _ =>
                  destruct r; [|done]
              end).
      done. }
  assert (He : enriched env eid = enriched env' eid).
  { unfold enriched. by rewrite Hc. }
  split; [done|]. by rewrite !future_enriched, He.
Qed.

Lemma fetch_ignores_status_witness :
  enriched data_service "1M17" = enriched (error_pages data_service) "1M17" ∧
  future data_service "1M17" = future (error_pages data_service) "1M17".
Proof.
  apply (fetch_ignores_status data_service (error_pages data_service) "1M17").
  intros req. unfold error_pages. by destruct (data_service req).
Defined.

(** ** Filters *)

Lemma prefix_spec (p s : string) :
  String.prefix p s = true ↔ ∃ b, s = (p ++ b)%string.
Proof.
  revert s. induction p as [|c p IH]; intros s; simpl.
  - destruct s; (split; [intros _; by eexists|done]).
  - destruct s as [|d s]; simpl.
    + split; [done|]. by intros [b [=]].
    + destruct (Ascii.ascii_dec c d) as [->|Hne].
      * rewrite IH. split.
        -- intros [b ->]. by exists b.
        -- intros [b [= ->]]. by exists b.
      * split; [done|]. intros [b [= ? _]]. done.
Qed.

(** [contains] is the substring test. *)
Lemma contains_spec (pat s : string) :
  contains pat s = true ↔ ∃ a b, s = (a ++ pat ++ b)%string.
Proof.
  induction s as [|c s IH].
  - change (contains pat "") with (String.prefix pat "" || false).
    rewrite orb_false_r, prefix_spec. split.
    + intros [b Hb]. by exists "", b.
    + intros ([|? a] & b & Hab); [by exists b|done].
  - change (contains pat (String c s))
      with (String.prefix pat (String c s) || contains pat s).
    rewrite orb_true_iff, prefix_spec, IH. split.
    + intros [[b Hb]|(a & b & ->)].
      * by exists "", b.
      * by exists (String c a), b.
    + intros ([|d a] & b & Hab).
      * left. by exists b.
      * right. injection Hab as -> ->. by exists a, b.
Qed.

Lemma filter_sublist_impl {A} (p q : A → bool) (l : list A) :
  (∀ x, p x = true → q x = true) →
  List.filter p l `sublist_of` List.filter q l.
Proof.
  intros H. induction l as [|x l IH]; simpl; [constructor|].
  destruct (p x) eqn:Hp.
  - rewrite (H x Hp). by constructor.
  - destruct (q x); [by constructor|done].
Qed.

(** The long s of "microſcopy" and the dotless i of "mıcroscopy" match
    the S and the I of the selected method, as they do for the regex. *)
Example contains_nocase_beyond_ascii :
  contains_nocase "ELECTRON MICROSCOPY" "electron microſcopy" = true ∧
  contains_nocase "ELECTRON MICROSCOPY" "Electron mıcroscopy (cryo)" = true ∧
  contains_nocase "ELECTRON MICROSCOPY" "ELECTRON MİCROSCOPY" = true ∧
  contains_nocase "X-RAY" "x-ray diffraction" = true ∧
  contains_nocase "NMR" "SOLUTION NMR" = true ∧
  contains_nocase "X-RAY" "XRAY" = false.
Proof. split_and!; reflexivity. Qed.

(** X10. A record is in the output of the filter block exactly when it is
    in the input and passes every filter that is switched on: "Homo
    sapiens" is a substring of its organism, its chain count is 1, the
    selected method name is a substring of its method once the characters
    are written as [re.IGNORECASE] compares them ([casefold]), and its
    resolution is a number at most the ceiling. The order in which the
    masks are applied plays no part. *)
Theorem filter_block_elem_of (f : Filters) (df : DataFrame) (r : EntryRecord) :
  r ∈ filter_block f df ↔
  r ∈ df ∧
  (only_human f = true →
     ∃ a b, Organism r = (a ++ "Homo sapiens" ++ b)%string) ∧
  (monomer_only f = true → Chain_Count r = 1) ∧
  (method_filter f ≠ Any →
     ∃ a b, casefold (Method r)
            = (a ++ method_name (method_filter f) ++ b)%string) ∧
  (∃ q, Resolution r = Some q ∧ (q <= max_res f)%Q).
Proof.
  rewrite filter_block_keeps, list_elem_of_In, List.filter_In, <- list_elem_of_In.
  unfold keeps. rewrite !andb_true_iff.
  assert (H1 : implb (only_human f) (contains "Homo sapiens" (Organism r)) = true
               ↔ (only_human f = true →
                  ∃ a b, Organism r = (a ++ "Homo sapiens" ++ b)%string)).
  { rewrite <- contains_spec. destruct (only_human f); simpl; [|done].
    split; auto. }
  assert (H2 : implb (monomer_only f) (Nat.eqb (Chain_Count r) 1) = true
               ↔ (monomer_only f = true → Chain_Count r = 1)).
  { rewrite <- Nat.eqb_eq. destruct (monomer_only f); simpl; [|done].
    split; auto. }
  assert (H3 : match method_filter f with
               | Any => true
               | m => contains_nocase (method_name m) (Method r)
               end = true
               ↔ (method_filter f ≠ Any →
                  ∃ a b, casefold (Method r)
                         = (a ++ method_name (method_filter f) ++ b)%string)).
  { rewrite <- contains_spec. unfold contains_nocase.
    destruct (method_filter f).
    - split; [by intros _ ?|done].
    - change (casefold (method_name XRAY)) with (method_name XRAY).
      split; [auto|]. intros H. by apply H.
    - change (casefold (method_name ELECTRON_MICROSCOPY))
        with (method_name ELECTRON_MICROSCOPY).
      split; [auto|]. intros H. by apply H.
    - change (casefold (method_name NMR)) with (method_name NMR).
      split; [auto|]. intros H. by apply H. }
  assert (H4 : notnull (Resolution r) = true ∧
               res_leb (Resolution r) (max_res f) = true
               ↔ ∃ q, Resolution r = Some q ∧ (q <= max_res f)%Q).
  { destruct (Resolution r) as [q|]; simpl.
    - rewrite Qle_bool_iff. split.
      + intros [_ ?]. by exists q.
      + intros (? & [= <-] & ?). done.
    - split; [by intros [? _]|]. by intros (? & ? & _). }
  rewrite H1, H2, H3, H4. tauto.
Qed.

(** X11. The filter block only removes rows: its output is the input with
    some rows left out, the others in their order, so it is never longer
    than the input, and a row is decided on its own, whatever the other rows
    are. *)
Theorem filter_block_sublist (f : Filters) (df df' : DataFrame) :
  filter_block f df `sublist_of` df ∧
  (length (filter_block f df) ≤ length df)%nat ∧
  filter_block f (df ++ df') = filter_block f df ++ filter_block f df'.
Proof.
  assert (H : filter_block f df `sublist_of` df).
  { rewrite filter_block_keeps.
    induction df as [|r df IH]; simpl; [constructor|].
    destruct (keeps f r); by constructor. }
  split_and!; [done|by apply sublist_length|].
  rewrite !filter_block_keeps. apply List.filter_app.
Qed.

(** X12. Loosening the settings never loses a row: with an optional filter
    switched off, the method set to "Any" or the ceiling raised, every row
    kept before is still kept, in the same order. *)
Theorem filter_block_looser (f f' : Filters) (df : DataFrame) :
  (only_human f' = true → only_human f = true) →
  (monomer_only f' = true → monomer_only f = true) →
  (method_filter f' = Any ∨ method_filter f' = method_filter f) →
  (max_res f <= max_res f')%Q →
  filter_block f df `sublist_of` filter_block f' df.
Proof.
  intros Hh Hm Hmeth Hres. rewrite !filter_block_keeps.
  apply filter_sublist_impl. intros r. unfold keeps.
  rewrite !andb_true_iff. intros [[[H1 H2] H3] [H4 H5]].
  split_and!; [| | |done|].
  - destruct (only_human f'); [|done]. by rewrite Hh in H1.
  - destruct (monomer_only f'); [|done]. by rewrite Hm in H2.
  - destruct Hmeth as [->| ->]; [done|].
    by destruct (method_filter f).
  - destruct (Resolution r) as [q|]; [|done]. simpl in *.
    apply Qle_bool_iff. apply Qle_bool_iff in H5. by eapply Qle_trans.
Qed.

Lemma filter_block_looser_witness :
  filter_block {| only_human := true; monomer_only := true;
                  max_res := 25 # 10; method_filter := XRAY |} sample_frame
  `sublist_of` filter_block loosest sample_frame.
Proof.
  apply filter_block_looser; simpl; [done|done|by left|].
  unfold Qle. simpl. lia.
Defined.

(** ** Ranking *)

Lemma filter_block_Some (f : Filters) (df : DataFrame) (r : EntryRecord) :
  r ∈ filter_block f df →
  r ∈ df ∧ ∃ q, Resolution r = Some q ∧ (q <= max_res f)%Q.
Proof.
  rewrite filter_block_keeps, list_elem_of_In, List.filter_In.
  intros [Hin Hk]. split; [by apply list_elem_of_In|].
  unfold keeps in Hk. apply andb_true_iff in Hk as [_ Hk].
  destruct (Resolution r) as [q|]; [|done].
  exists q. split; [done|]. by apply Qle_bool_iff.
Qed.

Lemma resolutions_sorted (P : Q → Prop) (l : DataFrame) :
  Forall (λ r, ∃ q, Resolution r = Some q ∧ P q) l →
  StronglySorted by_resolution l →
  ∃ qs, Resolution <$> l = Some <$> qs ∧
        StronglySorted Qle qs ∧ Forall P qs.
Proof.
  induction 1 as [|r l (q & Hq & HP) Hl IH].
  - intros _. exists []. split_and!; constructor.
  - intros Hs. apply StronglySorted_inv in Hs as [Hs Hr].
    destruct (IH Hs) as (qs & Hqs & Hsorted & HPs).
    exists (q :: qs). rewrite !fmap_cons, Hq, Hqs.
    split_and!; [done| |by constructor].
    constructor; [done|].
    apply Forall_forall. intros q' Hq'.
    assert (Hin : Some q' ∈ Resolution <$> l).
    { rewrite Hqs. by apply list_elem_of_fmap_2. }
    apply list_elem_of_fmap in Hin as (r' & Hr' & Hin).
    rewrite Forall_forall in Hr. apply Hr in Hin.
    unfold by_resolution in Hin. by rewrite Hq, <- Hr' in Hin.
Qed.

Section Best.
Variable sort_values : DataFrame → DataFrame.
Hypothesis sort_values_Permutation : ∀ df, sort_values df ≡ₚ df.
Hypothesis sort_values_Sorted : ∀ df, Sorted by_resolution (sort_values df).

(** X13. The three records [top3] returns are the best of the X-ray
    records: there are three of them, or as many as the frame has X-ray
    records if these are fewer, and every X-ray record left out has a
    resolution that is no better than that of any record returned. *)
Theorem top3_best (df : DataFrame) :
  ∃ rest,
    top3 sort_values df ++ rest ≡ₚ List.filter is_xray df ∧
    length (top3 sort_values df) = min 3 (length (List.filter is_xray df)) ∧
    (∀ r s, r ∈ top3 sort_values df → s ∈ rest → by_resolution r s).
Proof.
  unfold top3. exists (drop 3 (sort_values (List.filter is_xray df))).
  split_and!.
  - by rewrite take_drop.
  - by rewrite length_take, sort_values_Permutation.
  - intros r s Hr Hs.
    eapply (StronglySorted_app_1_elem_of by_resolution); [|done..].
    rewrite take_drop. apply Sorted_StronglySorted; [apply _|].
    apply sort_values_Sorted.
Qed.

(** X14. On the frame the filter block stores, ranking meets no null:
    the records of [top3] come from the fetched frame, their resolutions
    are numbers in non-decreasing order, and none exceeds the ceiling. *)
Theorem top3_of_filtered (f : Filters) (df_all : DataFrame) :
  Forall (λ r, r ∈ df_all) (top3 sort_values (filter_block f df_all)) ∧
  ∃ qs, Resolution <$> top3 sort_values (filter_block f df_all) = Some <$> qs ∧
        StronglySorted Qle qs ∧
        Forall (λ q, (q <= max_res f)%Q) qs.
Proof.
  assert (H : Forall (λ r, r ∈ df_all ∧
                           ∃ q, Resolution r = Some q ∧ (q <= max_res f)%Q)
                     (top3 sort_values (filter_block f df_all))).
  { apply Forall_forall. intros r Hr. unfold top3 in Hr.
    apply subseteq_take in Hr. rewrite sort_values_Permutation in Hr.
    apply list_elem_of_In, List.filter_In in Hr as [Hr _].
    by apply list_elem_of_In, filter_block_Some in Hr. }
  split.
  - eapply Forall_impl; [exact H|]. by intros r [? _].
  - apply resolutions_sorted.
    + eapply Forall_impl; [exact H|]. by intros r [_ ?].
    + unfold top3. apply StronglySorted_take, Sorted_StronglySorted; [apply _|].
      apply sort_values_Sorted.
Qed.
End Best.

Lemma top3_best_witness :
  ∃ rest,
    top3 sort_by_resolution xray_frame ++ rest ≡ₚ List.filter is_xray xray_frame ∧
    length (top3 sort_by_resolution xray_frame)
      = min 3 (length (List.filter is_xray xray_frame)) ∧
    (∀ r s, r ∈ top3 sort_by_resolution xray_frame → s ∈ rest →
            by_resolution r s).
Proof.
  apply (top3_best sort_by_resolution
           sort_by_resolution_Permutation sort_by_resolution_Sorted xray_frame).
Defined.

Lemma top3_of_filtered_witness :
  Forall (λ r, r ∈ sample_frame)
         (top3 sort_by_resolution (filter_block loosest sample_frame)) ∧
  ∃ qs, Resolution <$> top3 sort_by_resolution (filter_block loosest sample_frame)
        = Some <$> qs ∧
        StronglySorted Qle qs ∧
        Forall (λ q, (q <= max_res loosest)%Q) qs.
Proof.
  apply (top3_of_filtered sort_by_resolution
           sort_by_resolution_Permutation sort_by_resolution_Sorted
           loosest sample_frame).
Defined.

(** ** Export *)

Lemma write_pdbs_answered env ids : ∀ zipf t,
  Forall (answered env) ids →
  write_pdbs env ids zipf t
  = (t ++ (download_request <$> ids),
     Return (zipf ++ ((λ i, (pdb_name i, file_text env i)) <$> ids))).
Proof.
  induction ids as [|i ids IH]; intros zipf t H; simpl.
  - by rewrite !app_nil_r.
  - apply Forall_cons in H as [[r Hr] H].
    unfold bind, request. rewrite Hr.
    rewrite (IH _ _ H). unfold file_text at 2. rewrite Hr.
    by rewrite <- !app_assoc.
Qed.

Lemma write_pdbs_failure env ids1 i ids2 e : ∀ zipf t,
  Forall (answered env) ids1 →
  env (DownloadGet i) = Raise e →
  write_pdbs env (ids1 ++ i :: ids2) zipf t
  = (t ++ (download_request <$> ids1 ++ [i]), Raise e).
Proof.
  induction ids1 as [|j ids1 IH]; intros zipf t H Hi; simpl.
  - unfold bind, request. by rewrite Hi.
  - apply Forall_cons in H as [[r Hr] H].
    unfold bind, request. rewrite Hr.
    rewrite (IH _ _ H Hi). by rewrite <- !app_assoc.
Qed.

(** X15. When the file service answers every request, the archive gets
    one entry per identifier, in order and with repetitions, named
    [id.pdb] and holding the text of the answer; the status of the answer
    is not looked at, so the text of an error page is stored like a
    structure file. *)
Theorem build_zip_answered (env : Env) (ids : list string) (t : list Event) :
  Forall (answered env) ids →
  build_zip env ids t
  = (t ++ (download_request <$> ids),
     Return ((λ i, (pdb_name i, file_text env i)) <$> ids)).
Proof. intros H. unfold build_zip. by rewrite write_pdbs_answered. Qed.

Lemma build_zip_answered_witness :
  build_zip (error_pages file_service) ["1AAA"; "1AAA"] []
  = ([] ++ (download_request <$> ["1AAA"; "1AAA"]),
     Return ((λ i, (pdb_name i, file_text (error_pages file_service) i))
               <$> ["1AAA"; "1AAA"])).
Proof.
  apply (build_zip_answered (error_pages file_service) ["1AAA"; "1AAA"] []).
  repeat constructor; by eexists.
Defined.

(** X16. The first structure file that cannot be fetched aborts the build:
    the exception of the request leaves [build_zip], no archive comes out,
    not even one with the files fetched so far, the failed request is not
    repeated and the identifiers after it are not requested. *)
Theorem build_zip_aborts
    (env : Env) (ids1 ids2 : list string) (i : string) (e : PyExc)
    (t : list Event) :
  Forall (answered env) ids1 →
  env (DownloadGet i) = Raise e →
  build_zip env (ids1 ++ i :: ids2) t
  = (t ++ (download_request <$> ids1 ++ [i]), Raise e).
Proof. intros H Hi. unfold build_zip. by apply write_pdbs_failure. Qed.

Lemma build_zip_aborts_witness :
  build_zip (file_service_without "3CCC") (["1AAA"] ++ "3CCC" :: ["5EEE"]) []
  = ([] ++ (download_request <$> ["1AAA"] ++ ["3CCC"]), Raise ConnectionError).
Proof.
  apply (build_zip_aborts (file_service_without "3CCC") ["1AAA"] ["5EEE"]
           "3CCC" ConnectionError []).
  - repeat constructor. by eexists.
  - reflexivity.
Defined.

Section Exporting.
Variable env : Env.
Variable sort_values : DataFrame → DataFrame.
Hypothesis sort_values_Permutation : ∀ df, sort_values df ≡ₚ df.

Lemma top3_subseteq (df : DataFrame) : top3 sort_values df ⊆ df.
Proof.
  intros r Hr. unfold top3 in Hr. apply subseteq_take in Hr.
  rewrite sort_values_Permutation in Hr.
  by apply list_elem_of_In, List.filter_In in Hr as [?%list_elem_of_In _].
Qed.

(** X17. With an X-ray record in the frame and a file service that
    answers for every record, [tab1] shows the two tables and both
    download buttons. The files of the top three are requested a second
    time for the second archive: the page sends one request per record of
    the frame and then one per record of the top three. *)
Theorem tab1_exports (df : DataFrame) (t : list Event) :
  top3 sort_values df ≠ [] →
  Forall (answered env) (PDB_ID <$> df) →
  tab1 env sort_values df t
  = (t ++ [Shown (Subheader "📄 Matching Structures");
           Shown (Dataframe (sort_values df));
           Shown (Markdown "### 🏆 Top 3 X-ray Structures");
           Shown (Table (top3 sort_values df))]
       ++ (download_request <$> (PDB_ID <$> df))
       ++ [Shown (DownloadButton "📥 Download All Filtered PDBs (ZIP)"
                    ((λ i, (pdb_name i, file_text env i)) <$> (PDB_ID <$> df))
                    "filtered_structures.zip" "application/zip")]
       ++ (download_request <$> (PDB_ID <$> top3 sort_values df))
       ++ [Shown (DownloadButton "📥 Download Top 3 PDBs (ZIP)"
                    ((λ i, (pdb_name i, file_text env i))
                       <$> (PDB_ID <$> top3 sort_values df))
                    "top3_structures.zip" "application/zip")],
     Return tt).
Proof.
  intros Hne Hdf.
  assert (Htop : Forall (answered env) (PDB_ID <$> top3 sort_values df)).
  { rewrite Forall_forall in Hdf. apply Forall_forall. intros i Hi.
    apply list_elem_of_fmap in Hi as (r & -> & Hr).
    apply Hdf, list_elem_of_fmap_2. by apply top3_subseteq. }
  unfold tab1.
  destruct (top3 sort_values df) as [|r0 top] eqn:Htop3; [done|].
  unfold bind at 1. unfold show at 1.
  unfold bind at 1. unfold show at 1.
  unfold bind at 1. unfold show at 1.
  unfold bind at 1. unfold show at 1.
  unfold bind at 1. unfold build_zip at 1; rewrite (write_pdbs_answered _ _ _ _ Hdf).
  unfold bind at 1. unfold show at 1.
  unfold bind at 1. unfold build_zip at 1; rewrite (write_pdbs_answered _ _ _ _ Htop).
  unfold show. by rewrite <- !app_assoc.
Qed.

(** X18. A structure file of the frame that cannot be fetched stops
    [tab1] with the exception of the request: the tables are on the page,
    neither download button is. *)
Theorem tab1_export_failure
    (df : DataFrame) (ids1 ids2 : list string) (i : string) (e : PyExc)
    (t : list Event) :
  top3 sort_values df ≠ [] →
  PDB_ID <$> df = ids1 ++ i :: ids2 →
  Forall (answered env) ids1 →
  env (DownloadGet i) = Raise e →
  tab1 env sort_values df t
  = (t ++ [Shown (Subheader "📄 Matching Structures");
           Shown (Dataframe (sort_values df));
           Shown (Markdown "### 🏆 Top 3 X-ray Structures");
           Shown (Table (top3 sort_values df))]
       ++ (download_request <$> ids1 ++ [i]),
     Raise e).
Proof.
  intros Hne Hids H1 Hi. unfold tab1.
  destruct (top3 sort_values df) as [|r0 top] eqn:Htop3; [done|].
  unfold bind at 1. unfold show at 1.
  unfold bind at 1. unfold show at 1.
  unfold bind at 1. unfold show at 1.
  unfold bind at 1. unfold show at 1.
  unfold bind at 1. rewrite Hids.
  unfold build_zip. rewrite (write_pdbs_failure _ _ _ _ _ _ _ H1 Hi).
  by rewrite <- !app_assoc.
Qed.
End Exporting.

Lemma tab1_exports_witness :
  tab1 file_service sort_by_resolution xray_frame []
  = ([] ++ [Shown (Subheader "📄 Matching Structures");
            Shown (Dataframe (sort_by_resolution xray_frame));
            Shown (Markdown "### 🏆 Top 3 X-ray Structures");
            Shown (Table (top3 sort_by_resolution xray_frame))]
        ++ (download_request <$> (PDB_ID <$> xray_frame))
        ++ [Shown (DownloadButton "📥 Download All Filtered PDBs (ZIP)"
                     ((λ i, (pdb_name i, file_text file_service i))
                        <$> (PDB_ID <$> xray_frame))
                     "filtered_structures.zip" "application/zip")]
        ++ (download_request <$> (PDB_ID <$> top3 sort_by_resolution xray_frame))
        ++ [Shown (DownloadButton "📥 Download Top 3 PDBs (ZIP)"
                     ((λ i, (pdb_name i, file_text file_service i))
                        <$> (PDB_ID <$> top3 sort_by_resolution xray_frame))
                     "top3_structures.zip" "application/zip")],
     Return tt).
Proof.
  apply (tab1_exports file_service sort_by_resolution
           sort_by_resolution_Permutation xray_frame []).
  - by vm_compute.
  - repeat constructor; by eexists.
Defined.

Lemma tab1_export_failure_witness :
  tab1 (file_service_without "5EEE") sort_by_resolution xray_frame []
  = ([] ++ [Shown (Subheader "📄 Matching Structures");
            Shown (Dataframe (sort_by_resolution xray_frame));
            Shown (Markdown "### 🏆 Top 3 X-ray Structures");
            Shown (Table (top3 sort_by_resolution xray_frame))]
        ++ (download_request <$> ["1AAA"; "3CCC"] ++ ["5EEE"]),
     Raise ConnectionError).
Proof.
  apply (tab1_export_failure (file_service_without "5EEE") sort_by_resolution
           xray_frame ["1AAA"; "3CCC"] ["6FFF"] "5EEE" ConnectionError []).
  - by vm_compute.
  - reflexivity.
  - repeat constructor; by eexists.
  - reflexivity.
Defined.

(** ** Session state *)

(** X19. Whatever searches were made, a session that holds results holds
    a frame that is not empty and has no null resolution, its filtered
    count is the number of rows of that frame, and the filtered count is
    at least one and at most the raw count. *)
Theorem session_invariant (state : option Session) (s : Session) :
  reachable state →
  state = Some s →
  session_df s ≠ [] ∧
  Forall (λ r, ∃ q, Resolution r = Some q) (session_df s) ∧
  filtered_count s = length (session_df s) ∧
  (1 ≤ filtered_count s ≤ raw_count s)%nat.
Proof.
  intros H. revert s.
  induction H as [|f n df_all state t t' state' _ IH Hn Hrun]; [done|].
  intros s ->. unfold filter_and_store in Hrun.
  destruct df_all as [|r0 rows]; [done|].
  remember (r0 :: rows) as df_all eqn:Hrows. clear Hrows.
  destruct (filter_block f df_all) as [|r df] eqn:Hdf.
  - unfold bind, show, ret in Hrun. injection Hrun as _ ->. by apply IH.
  - injection Hrun as _ <-. simpl.
    split_and!; [done| |done|lia|].
    + apply Forall_forall. intros r' Hr'. rewrite <- Hdf in Hr'.
      apply filter_block_Some in Hr' as (_ & q & Hq & _). by exists q.
    + assert (Hlen : (length (filter_block f df_all) ≤ length df_all)%nat).
      { rewrite filter_block_keeps.
        clear. induction df_all as [|x l IH]; simpl; [done|].
        destruct (keeps f x); simpl; lia. }
      rewrite Hdf in Hlen. simpl in Hlen. lia.
Qed.

Lemma sample_session_reachable : reachable (Some sample_session).
Proof.
  apply (reachable_search loosest 8 sample_frame None [] [] _ reachable_start).
  - simpl. lia.
  - reflexivity.
Qed.

Lemma session_invariant_witness :
  session_df sample_session ≠ [] ∧
  Forall (λ r, ∃ q, Resolution r = Some q) (session_df sample_session) ∧
  filtered_count sample_session = length (session_df sample_session) ∧
  (1 ≤ filtered_count sample_session ≤ raw_count sample_session)%nat.
Proof.
  apply (session_invariant (Some sample_session) sample_session
           sample_session_reachable eq_refl).
Defined.

(** X20. A search that fetched at least one record, none of them with a
    resolution at most the ceiling, shows the warning and leaves the
    session as it was, whatever the other settings: the results of the
    search before stay in the session. A search that fetched no record at
    all does not get that far: the frame has no columns, the filter block
    raises KeyError and no warning is shown. *)
Theorem filter_and_store_no_match
    (f : Filters) (n : nat) (df_all : DataFrame) (state : option Session)
    (t : list Event) :
  Forall (λ r, ∀ q, Resolution r = Some q → ¬ (q <= max_res f)%Q) df_all →
  (df_all ≠ [] →
   filter_and_store f n df_all state t
   = (t ++ [Shown (Warning "⚠️ No structures matched your filters.")],
      Return state)) ∧
  (df_all = [] →
   filter_and_store f n df_all state t = (t, Raise KeyError)).
Proof.
  intros H. split.
  - intros Hne. unfold filter_and_store.
    destruct df_all as [|r0 rows]; [done|].
    set (df_all := r0 :: rows) in *.
    destruct (filter_block f df_all) as [|r df] eqn:Hdf; [done|].
    exfalso.
    assert (Hr : r ∈ filter_block f df_all) by (rewrite Hdf; left).
    apply filter_block_Some in Hr as (Hin & q & Hq & Hle).
    rewrite Forall_forall in H. by apply (H r Hin q).
  - by intros ->.
Qed.

Lemma filter_and_store_no_match_witness :
  (nmr_frame ≠ [] →
   filter_and_store {| only_human := false; monomer_only := false;
                       max_res := 1; method_filter := Any |}
                    2 nmr_frame (Some sample_session) []
   = ([] ++ [Shown (Warning "⚠️ No structures matched your filters.")],
      Return (Some sample_session))) ∧
  (nmr_frame = [] →
   filter_and_store {| only_human := false; monomer_only := false;
                       max_res := 1; method_filter := Any |}
                    2 nmr_frame (Some sample_session) []
   = ([], Raise KeyError)).
Proof.
  apply filter_and_store_no_match.
  repeat constructor; simpl; intros q [= <-]; unfold Qle; simpl; lia.
Defined.

Example filter_and_store_no_match_run :
  filter_and_store {| only_human := false; monomer_only := false;
                      max_res := 1; method_filter := Any |}
                   2 nmr_frame (Some sample_session) []
  = ([Shown (Warning "⚠️ No structures matched your filters.")],
     Return (Some sample_session))
  ∧ filter_and_store loosest 3 [] (Some sample_session) [] = ([], Raise KeyError).
Proof. split; reflexivity. Qed.

(** ** 3D viewer *)

(** X21. The viewer asks the file service for the structure with the
    request the archive build uses, once, and shows as its only model, in
    "pdb" format, the text an archive of that one structure would hold;
    when the request fails both raise the same exception. *)
Theorem view_structure_3d_as_archived
    (env : Env) (pdb_id : string) (t : list Event) :
  (view_structure_3d env pdb_id t).1 = t ++ [download_request pdb_id] ∧
  (build_zip env [pdb_id] t).1 = t ++ [download_request pdb_id] ∧
  match (view_structure_3d env pdb_id t).2, (build_zip env [pdb_id] t).2 with
  | Return view, Return zipf =>
      view_models view = (λ entry, (entry.2, "pdb")) <$> zipf ∧
      zipf.*1 = [pdb_name pdb_id]
  | Raise e, Raise e' => e = e' ∧ env (DownloadGet pdb_id) = Raise e
  | _, _ => False
  end.
Proof.
  unfold view_structure_3d, build_zip. simpl.
  unfold bind, request, ret.
  by destruct (env (DownloadGet pdb_id)).
Qed.

(** ** The fields of a record *)

Lemma remove_dups_cons {A} `{EqDecision A} (x : A) (l : list A) :
  remove_dups (x :: l)
  = if decide (x ∈ l) then remove_dups l else x :: remove_dups l.
Proof. reflexivity. Qed.

Lemma remove_dups_length_le {A} `{EqDecision A} (l : list A) :
  (length (remove_dups l) ≤ length l)%nat.
Proof.
  induction l as [|x l IH]; [done|].
  rewrite remove_dups_cons. case_decide; simpl; lia.
Qed.

Lemma remove_dups_nil_iff {A} `{EqDecision A} (l : list A) :
  remove_dups l = [] ↔ l = [].
Proof.
  split; [|by intros ->]. intros H.
  destruct l as [|x l]; [done|].
  assert (Hx : x ∈ remove_dups (x :: l)) by (apply elem_of_remove_dups; left).
  rewrite H in Hx. by apply elem_of_nil in Hx.
Qed.

Lemma remove_dups_length_1 {A} `{EqDecision A} (l : list A) :
  length (remove_dups l) = 1 ↔ ∃ k, l ≠ [] ∧ Forall (λ x, x = k) l.
Proof.
  split.
  - intros H. destruct (remove_dups l) as [|k [|? ?]] eqn:Hd; try done.
    exists k. split.
    + intros ->. done.
    + apply Forall_forall. intros x Hx.
      apply elem_of_remove_dups in Hx. rewrite Hd in Hx.
      by apply list_elem_of_singleton in Hx.
  - intros (k & Hne & Hall).
    assert (Hd : remove_dups l ≡ₚ [k]).
    { apply NoDup_Permutation.
      - apply NoDup_remove_dups.
      - apply NoDup_singleton.
      - intros x. rewrite elem_of_remove_dups, list_elem_of_singleton.
        rewrite Forall_forall in Hall. split; [by apply Hall|].
        intros ->. destruct l as [|y l]; [done|].
        rewrite (Hall y); by left. }
    by rewrite Hd.
Qed.

(** X22. The chain count is at most the number of labels listed, it is 0
    exactly when no polymer entity lists a label, and it is 1, the value
    the monomer filter asks for, exactly when at least one label is listed
    and all the labels listed, over all polymer entities, are equal. *)
Theorem chain_count_field_small (chains : list Json) (n : nat) :
  chain_count_field chains = Return n →
  (n ≤ length chains)%nat ∧
  (n = 0 ↔ chains = []) ∧
  (n = 1 ↔ ∃ k, chains ≠ [] ∧ Forall (λ c, py_hash c = Return k) chains).
Proof.
  unfold chain_count_field, py_set.
  destruct (rmapM py_hash chains) as [keys|] eqn:Hk; [|done]. simpl.
  intros [= <-]. apply rmapM_Forall2 in Hk.
  pose proof (Forall2_length _ _ _ Hk) as Hlen.
  split_and!.
  - rewrite Hlen. apply remove_dups_length_le.
  - rewrite length_zero_iff_nil, remove_dups_nil_iff.
    split; intros ->; [by inv Hk|by inv Hk].
  - rewrite remove_dups_length_1. split.
    + intros (k & Hne & Hall). exists k. split.
      * intros ->. by inv Hk.
      * clear Hne Hlen. induction Hk as [|c k' ? ? Hc _ IH]; [constructor|].
        apply Forall_cons in Hall as [-> Hall]. constructor; auto.
    + intros (k & Hne & Hall). exists k. split.
      * intros ->. by inv Hk.
      * clear Hne Hlen. induction Hk as [|c k' ? ? Hc _ IH]; [constructor|].
        apply Forall_cons in Hall as [Hck Hall]. constructor; [|auto].
        congruence.
Qed.

Lemma chain_count_field_small_witness :
  (1 ≤ length [JStr "A"; JStr "A"])%nat ∧
  (1 = 0 ↔ [JStr "A"; JStr "A"] = []) ∧
  (1 = 1 ↔ ∃ k, [JStr "A"; JStr "A"] ≠ [] ∧
                Forall (λ c, py_hash c = Return k) [JStr "A"; JStr "A"]).
Proof.
  apply (chain_count_field_small [JStr "A"; JStr "A"] 1). reflexivity.
Defined.

Lemma rmapM_py_hash (l : list Json) :
  rmapM py_hash l
  = if forallb is_hashable l then Return (key_of <$> l) else Raise TypeError.
Proof.
  induction l as [|c l IH]; [done|].
  cbn [rmapM forallb]. rewrite IH. rewrite fmap_cons.
  destruct c; simpl; try done; by destruct (forallb is_hashable l).
Qed.

Lemma forallb_Permutation {A} (p : A → bool) (l l' : list A) :
  l ≡ₚ l' → forallb p l = forallb p l'.
Proof.
  induction 1 as [|x l l' _ IH|x y l|l l' l'' _ IH1 _ IH2]; simpl.
  - done.
  - by rewrite IH.
  - destruct (p x), (p y); done.
  - by rewrite IH1.
Qed.

Lemma remove_dups_Permutation {A} `{EqDecision A} (l l' : list A) :
  l ≡ₚ l' → remove_dups l ≡ₚ remove_dups l'.
Proof.
  intros H. apply NoDup_Permutation; [apply NoDup_remove_dups..|].
  intros x. by rewrite !elem_of_remove_dups, H.
Qed.

Lemma mapM_key_str_omap (orgs : list Key) (names : list string) :
  mapM key_str orgs = Some names → omap key_str orgs = names.
Proof.
  intros H. apply mapM_key_str in H as ->.
  induction names as [|s names IH]; [done|].
  rewrite fmap_cons. cbn [omap list_omap]. simpl. by rewrite IH.
Qed.

Lemma sorted_join_Permutation (orgs orgs' : list Key) :
  orgs ≡ₚ orgs' → sorted_join orgs = sorted_join orgs'.
Proof.
  intros H. unfold sorted_join.
  destruct (mapM key_str orgs) as [ss|] eqn:H1,
           (mapM key_str orgs') as [ss'|] eqn:H2.
  - f_equal. f_equal.
    apply mapM_key_str_omap in H1, H2.
    assert (Hss : ss ≡ₚ ss') by (by rewrite <- H1, <- H2, H).
    apply (StronglySorted_unique str_le).
    + apply (StronglySorted_merge_sort _).
    + apply (StronglySorted_merge_sort _).
    + by rewrite !merge_sort_Permutation.
  - exfalso. apply mapM_None in H2. apply Exists_exists in H2 as (k & Hk & Hn).
    rewrite <- H in Hk. apply mapM_key_str in H1. rewrite H1 in Hk.
    apply list_elem_of_fmap in Hk as (s & -> & _). done.
  - exfalso. apply mapM_None in H1. apply Exists_exists in H1 as (k & Hk & Hn).
    rewrite H in Hk. apply mapM_key_str in H2. rewrite H2 in Hk.
    apply list_elem_of_fmap in Hk as (s & -> & _). done.
  - done.
Qed.

(** X23. The organism field and the chain count do not depend on the
    order in which the polymer entities of an entry are listed, nor on the
    order of the labels within them: organism names and chain labels that
    are rearranged give the same two fields, or the same exception. *)
Theorem record_fields_order_independent
    (names names' : list (option Key)) (chains chains' : list Json) :
  names ≡ₚ names' →
  chains ≡ₚ chains' →
  organism_field (foldl add_organism [] names)
  = organism_field (foldl add_organism [] names') ∧
  chain_count_field chains = chain_count_field chains'.
Proof.
  intros Hn Hc. split.
  - unfold organism_field. f_equal. apply sorted_join_Permutation.
    apply NoDup_Permutation.
    + apply foldl_add_organism_NoDup, NoDup_nil_2.
    + apply foldl_add_organism_NoDup, NoDup_nil_2.
    + intros k. by rewrite !elem_of_foldl_add_organism, Hn.
  - unfold chain_count_field, py_set. rewrite !rmapM_py_hash.
    rewrite (forallb_Permutation _ _ _ Hc).
    destruct (forallb is_hashable chains'); [|done]. simpl.
    f_equal. apply Permutation_length, remove_dups_Permutation.
    by rewrite Hc.
Qed.

Lemma record_fields_order_independent_witness :
  organism_field (foldl add_organism []
                    [Some (KStr "Mus musculus"); None; Some (KStr "Homo sapiens")])
  = organism_field (foldl add_organism []
                      [Some (KStr "Homo sapiens"); Some (KStr "Mus musculus"); None]) ∧
  chain_count_field [JStr "A"; JStr "B"; JStr "A"]
  = chain_count_field [JStr "B"; JStr "A"; JStr "A"].
Proof.
  apply record_fields_order_independent.
  - apply (Permutation_app_comm [_; _] [_]).
  - apply perm_swap.
Defined.

(** ** Ranking after the method filter *)

(** X24. With the method "X-RAY" selected in the sidebar, every record
    the filter block keeps is an X-ray record for the ranking as well: the
    ranking drops none of them, and [top3] is empty only if the filtered
    frame is. *)
Theorem xray_filter_then_top3
    (sort_values : DataFrame → DataFrame) (f : Filters) (df_all : DataFrame) :
  (∀ df, sort_values df ≡ₚ df) →
  method_filter f = XRAY →
  List.filter is_xray (filter_block f df_all) = filter_block f df_all ∧
  length (top3 sort_values (filter_block f df_all))
  = min 3 (length (filter_block f df_all)) ∧
  (top3 sort_values (filter_block f df_all) = [] ↔ filter_block f df_all = []).
Proof.
  intros Hperm Hm.
  assert (H : List.filter is_xray (filter_block f df_all) = filter_block f df_all).
  { rewrite filter_block_keeps, filter_filter. apply List.filter_ext_in.
    intros r _. unfold keeps. rewrite Hm. simpl. unfold is_xray.
    destruct (contains_nocase "X-RAY" (Method r)); simpl;
      by rewrite ?andb_true_r, ?andb_false_r. }
  assert (Hlen : length (top3 sort_values (filter_block f df_all))
                 = min 3 (length (filter_block f df_all))).
  { unfold top3. by rewrite length_take, Hperm, H. }
  split_and!; [done..|].
  destruct (filter_block f df_all) as [|r l] eqn:Hdf.
  - split; [done|]. intros _. apply length_zero_iff_nil. by rewrite Hlen.
  - split; [|done]. intros Hnil. rewrite Hnil in Hlen. simpl in Hlen. lia.
Qed.

Lemma xray_filter_then_top3_witness :
  List.filter is_xray
    (filter_block {| only_human := true; monomer_only := true;
                     max_res := 25 # 10; method_filter := XRAY |} sample_frame)
  = filter_block {| only_human := true; monomer_only := true;
                    max_res := 25 # 10; method_filter := XRAY |} sample_frame ∧
  length (top3 sort_by_resolution
            (filter_block {| only_human := true; monomer_only := true;
                             max_res := 25 # 10; method_filter := XRAY |}
                          sample_frame))
  = min 3 (length (filter_block {| only_human := true; monomer_only := true;
                                   max_res := 25 # 10; method_filter := XRAY |}
                                sample_frame)) ∧
  (top3 sort_by_resolution
     (filter_block {| only_human := true; monomer_only := true;
                      max_res := 25 # 10; method_filter := XRAY |} sample_frame)
   = [] ↔
   filter_block {| only_human := true; monomer_only := true;
                   max_res := 25 # 10; method_filter := XRAY |} sample_frame = []).
Proof.
  apply (xray_filter_then_top3 sort_by_resolution
           {| only_human := true; monomer_only := true;
              max_res := 25 # 10; method_filter := XRAY |} sample_frame).
  - apply sort_by_resolution_Permutation.
  - reflexivity.
Defined.
